(** * CtrlXTEngine: the reality matrix and the quantum core

    A shallow embedding of [Engine/RealityMatrix.js] and
    [Engine/QuantumCore.js].  Game objects are JavaScript objects that the
    engine mutates in place and shares by reference, so they live in an
    explicit store: a reference is a location, the store maps a location to
    the object's own properties.  A world is the record that [createWorld]
    builds; its [objects] array holds references.

    Console narration is left out where producing it cannot fail.  It can
    fail in two ways on the data of the model.  [JSON.stringify], in the
    first message of the loop of [alterReality], throws on a change record
    that reaches itself.  The conversion of a value to a string, in a
    template literal or in [join], throws on an object without a callable
    [toString].  Reading the id of an entry of [objects] that is [null] or
    [undefined] throws as well.  Each of these ends the call, and the model
    says what the call leaves behind.

    Embedded from [RealityMatrix.js]: [createWorld], [alterReality],
    [controlTime], [loadWorld]; from [QuantumCore.js]: [createEntanglement],
    [breakEntanglement], [applySuperposition], [changeCurrentState]. *)

From Stdlib Require Import QArith Qcanon.
From stdpp Require Import base numbers strings list option gmap fin_maps pretty.

Local Open Scope string_scope.
Local Open Scope list_scope.
Local Open Scope Qc_scope.

(** ** JavaScript values and the object store *)

Module JS.

Abbreviation loc := positive.

(** The numbers held in properties are exact rationals: the finite values a
    JavaScript number can take, with one zero.  A string is the sequence of
    its UTF-16 code units; the model has the units below 256, one [ascii]
    each.  Objects and arrays are values by reference. *)
Inductive value :=
| VUndefined
| VNull
| VBool (b : bool)
| VNum (q : Qc)
| VStr (s : string)
| VRef (l : loc).

Arguments VRef l%_positive.

#[global] Instance value_eq_dec : EqDecision value.
Proof. solve_decision. Defined.

#[global] Instance value_inhabited : Inhabited value := populate VUndefined.

(** [!v] is [negb (truthy v)]. *)
Definition truthy (v : value) : bool :=
  match v with
  | VUndefined | VNull => false
  | VBool b => b
  | VNum q => negb (bool_decide (q = 0))
  | VStr s => negb (bool_decide (s = ""))
  | VRef _ => true
  end.

(** [v1 === v2]: primitives by content, objects by identity. *)
Definition strict_eq (v1 v2 : value) : bool := bool_decide (v1 = v2).

(** A cell of the store: the own enumerable properties of an object, and its
    elements when the object is an array. *)
Record cell := Cell {
  props : gmap string value;
  elems : option (list value);
}.

Definition empty_cell : cell := Cell ∅ None.

Abbreviation heap := (gmap loc cell).

Definition cell_of (h : heap) (l : loc) : cell := default empty_cell (h !! l).

(** [o.k] for an object reference [o] and a key [k] that is an own property
    or is nowhere on the prototype chain, as the keys the engine reads are;
    a primitive has no such property. *)
Definition get_prop (h : heap) (o : value) (k : string) : value :=
  match o with
  | VRef l => default VUndefined (props (cell_of h l) !! k)
  | _ => VUndefined
  end.

(** [o.k = v]. *)
Definition set_prop (h : heap) (l : loc) (k : string) (v : value) : heap :=
  let c := cell_of h l in
  <[l := Cell (<[k := v]> (props c)) (elems c)]> h.

(** [null] and [undefined]: reading a property of either throws a
    [TypeError]. *)
Definition nullish (v : value) : bool :=
  match v with
  | VUndefined | VNull => true
  | _ => false
  end.

(** Whether the conversion of a value to a string, in a template literal or
    in [join], throws a [TypeError].  The values of the model hold no
    function, so an object with an own property [toString] has no callable
    [toString], and its [valueOf], own or inherited, gives no primitive: its
    conversion throws.  Any other plain object converts through the
    [toString] it inherits.  An array converts through [join], unless it has
    an own property [join]; [join] converts in turn every element that is
    not [null] or [undefined].  An array met again among its own elements
    renders as the empty string (engines detect the cycle), so the walk
    below an array runs on the store without it, and [size h] steps of
    [fuel] are enough ([to_string_throws_fuel]). *)
Fixpoint to_string_throws_from (fuel : nat) (h : heap) (v : value) : bool :=
  match v with
  | VRef l =>
      let c := cell_of h l in
      bool_decide (is_Some (props c !! "toString"))
      || match elems c, fuel with
         | Some es, S fuel =>
             negb (bool_decide (is_Some (props c !! "join")))
             && existsb (to_string_throws_from fuel (delete l h)) es
         | _, _ => false
         end
  | _ => false
  end.

Definition to_string_throws (h : heap) (v : value) : bool :=
  to_string_throws_from (size h) h v.

End JS.

Import JS.

(** ** Engine/RealityMatrix.js *)

Module RealityMatrix.

(** A number as [controlTime] receives, compares and stores it: a finite
    value, NaN or an infinity. *)
Inductive number :=
| Finite (q : Qc)
| NaN
| PosInfinity
| NegInfinity.

Coercion Finite : Qc >-> number.

#[global] Instance number_eq_dec : EqDecision number.
Proof. solve_decision. Defined.

(** [n <= 0]; a comparison with NaN is false. *)
Definition number_le_0 (n : number) : bool :=
  match n with
  | Finite q => bool_decide (q ≤ 0)
  | NegInfinity => true
  | NaN | PosInfinity => false
  end.

(** [0 < n]. *)
Definition number_gt_0 (n : number) : bool :=
  match n with
  | Finite q => bool_decide (0 < q)
  | PosInfinity => true
  | NaN | NegInfinity => false
  end.

Record Vec3 := { x : Qc; y : Qc; z : Qc }.

Record ZeroPoint := { frequency : Qc; zp_coordinates : Vec3 }.

Record BlinkSpot := {
  spot_id : string;
  spot_coordinates : value;
  spot_time : string;
}.

(** The world that [createWorld] builds.  [objects] holds the entities: what
    [alterReality] pushes is a reference to an object.  The world
    itself, its dimensions, data sources and zero point and the blink spots
    are held by value: a world that is itself an entity, or in which one of
    these is, is outside the model. *)
Record World := {
  dimensions : Vec3;
  ocularComposition : string;
  processingModel : string;
  objects : list value;
  timeState : string;
  timeSpeedMultiplier : number;
  dataSources : list string;
  zeroPoint : ZeroPoint;
  blinkSpots : option (list BlinkSpot);
}.

Definition set_objects (objs : list value) (w : World) : World :=
  {| dimensions := dimensions w; ocularComposition := ocularComposition w;
     processingModel := processingModel w; objects := objs;
     timeState := timeState w; timeSpeedMultiplier := timeSpeedMultiplier w;
     dataSources := dataSources w; zeroPoint := zeroPoint w;
     blinkSpots := blinkSpots w |}.

Definition set_timeState (s : string) (w : World) : World :=
  {| dimensions := dimensions w; ocularComposition := ocularComposition w;
     processingModel := processingModel w; objects := objects w;
     timeState := s; timeSpeedMultiplier := timeSpeedMultiplier w;
     dataSources := dataSources w; zeroPoint := zeroPoint w;
     blinkSpots := blinkSpots w |}.

Definition set_timeSpeedMultiplier (q : number) (w : World) : World :=
  {| dimensions := dimensions w; ocularComposition := ocularComposition w;
     processingModel := processingModel w; objects := objects w;
     timeState := timeState w; timeSpeedMultiplier := q;
     dataSources := dataSources w; zeroPoint := zeroPoint w;
     blinkSpots := blinkSpots w |}.

Definition set_blinkSpots (b : option (list BlinkSpot)) (w : World) : World :=
  {| dimensions := dimensions w; ocularComposition := ocularComposition w;
     processingModel := processingModel w; objects := objects w;
     timeState := timeState w; timeSpeedMultiplier := timeSpeedMultiplier w;
     dataSources := dataSources w; zeroPoint := zeroPoint w;
     blinkSpots := b |}.

Definition createWorld (dimensions : Vec3) (ocularComposition processingModel : string)
    (dataSources : list string) : World :=
  {| dimensions := dimensions;
     ocularComposition := ocularComposition;
     processingModel := processingModel;
     objects := [];
     timeState := "PLAY";
     timeSpeedMultiplier := Finite 1;
     dataSources := dataSources;
     zeroPoint := {| frequency := 0; zp_coordinates := {| x := 0; y := 0; z := 0 |} |};
     blinkSpots := None |}.

(** *** controlTime *)

Definition time_states : list string :=
  ["PLAY"; "PAUSE"; "STOP"; "FAST FORWARD"; "REWIND"].

(** [speed] is [None] when the caller leaves the argument out. *)
Definition controlTime (world : World) (state : string) (speed : option number) : World :=
  let speed := default (Finite 1) speed in
  let previousState := timeState world in
  if bool_decide (state ∈ time_states) then
    let world := set_timeState state world in
    let world :=
      set_timeSpeedMultiplier
        (if bool_decide (state = "FAST FORWARD") || bool_decide (state = "REWIND")
         then speed else Finite 1) world in
    if bool_decide (state = "FAST FORWARD") then
      if number_le_0 speed
      then set_timeSpeedMultiplier (Finite 1) (set_timeState "PLAY" world)
      else world
    else if bool_decide (state = "REWIND") then
      if number_le_0 speed
      then set_timeSpeedMultiplier (Finite 1) (set_timeState "PLAY" world)
      else world
    else world
  else
    set_timeSpeedMultiplier (Finite 1) (set_timeState previousState world).

(** *** alterReality *)

(** A change record; a field the caller leaves out reads [VUndefined].  The
    record is no object of the store, so no value reaches it. *)
Record Change := {
  type : string;
  object : value;
  targetId : value;
  properties : value;
  coordinates : value;
}.

(** [arr.find(p)]: the first element that satisfies [p], else [undefined]. *)
Definition js_find (p : value → bool) (arr : list value) : value :=
  default VUndefined (List.find p arr).

(** The keys ["0"], ["1"], ... of an array's (or a string's) elements. *)
Definition indexed (es : list value) : gmap string value :=
  list_to_map (imap (λ i v, (pretty i, v)) es).

(** The own enumerable properties that [Object.assign] copies from [src]: of
    an object its properties and, for an array, its elements by index; of a
    string its code units by index. *)
Definition own_properties (h : heap) (src : value) : gmap string value :=
  match src with
  | VRef l =>
      let c := cell_of h l in
      props c ∪ indexed (default [] (elems c))
  | VStr s => indexed ((λ a, VStr (String a "")) <$> String.list_ascii_of_string s)
  | _ => ∅
  end.

(** [Object.assign(target, src)] on a target that is a plain object: every
    own property of [src] is assigned to the target, the other keys stay.
    The assignment of the key ["__proto__"] goes to the setter that every
    plain object inherits and adds no own property (with an object or [null]
    as value that setter replaces the prototype, which the store does not
    hold).  On a target that is an array the assignment of an index or of
    ["length"] acts on the elements; the properties below are about plain
    targets. *)
Definition object_assign (h : heap) (target src : value) : heap :=
  match target with
  | VRef l =>
      let c := cell_of h l in
      <[l := Cell (delete "__proto__" (own_properties h src) ∪ props c) (elems c)]> h
  | _ => h
  end.

(** What [JSON.stringify] serialises inside an object: the elements of an
    array, the own properties of any other object. *)
Definition serialised_parts (c : cell) : list value :=
  match elems c with
  | Some es => es
  | None => (map_to_list (props c)).*2
  end.

(** [JSON.stringify(v)] throws a [TypeError] when, going down from [v]
    through the parts it serialises, it meets an object that is an ancestor
    of itself on the way; [path] holds the ancestors.  An object met again
    elsewhere is serialised again.  An ancestor is caught by the test on
    [path] before it is looked up, so the walk below an object runs on the
    store without it, and [size h] steps of [fuel] are enough
    ([reaches_itself_fuel]). *)
Fixpoint reaches_itself (fuel : nat) (h : heap) (path : list loc) (v : value) : bool :=
  match v with
  | VRef l =>
      bool_decide (l ∈ path)
      || match fuel, h !! l with
         | S fuel, Some c =>
             existsb (reaches_itself fuel (delete l h) (l :: path)) (serialised_parts c)
         | _, _ => false
         end
  | _ => false
  end.

(** Whether [JSON.stringify(change)] throws (line 49). *)
Definition stringify_throws (h : heap) (change : Change) : bool :=
  existsb (reaches_itself (size h) h [])
          [object change; targetId change; properties change; coordinates change].

(** The [switch] on [change.type]. *)
Definition apply_switch (st : heap * World) (change : Change) : heap * World :=
  let '(h, targetWorld) := st in
  if bool_decide (type change = "add") then
    if negb (truthy (object change))
       || negb (truthy (get_prop h (object change) "id")) then st
    else
      let existingObject :=
        js_find (λ obj, strict_eq (get_prop h obj "id")
                                  (get_prop h (object change) "id"))
                (objects targetWorld) in
      if truthy existingObject then st
      else (h, set_objects (objects targetWorld ++ [object change]) targetWorld)
  else if bool_decide (type change = "remove") then
    if negb (truthy (targetId change)) then st
    else
      (h, set_objects
            (filter (λ obj, get_prop h obj "id" ≠ targetId change)
                    (objects targetWorld))
            targetWorld)
  else if bool_decide (type change = "modify") then
    if negb (truthy (targetId change)) || negb (truthy (properties change)) then st
    else
      let targetObject :=
        js_find (λ obj, strict_eq (get_prop h obj "id") (targetId change))
                (objects targetWorld) in
      if truthy targetObject
      then (object_assign h targetObject (properties change), targetWorld)
      else st
  else if bool_decide (type change = "createBlinkSpot") then
    if negb (truthy (coordinates change)) then st
    else
      let spots := default [] (blinkSpots targetWorld) in
      let newBlinkSpot :=
        {| spot_id := "blinkSpot-" +:+ pretty (length spots);
           spot_coordinates := coordinates change;
           spot_time := timeState targetWorld |} in
      (h, set_blinkSpots (Some (spots ++ [newBlinkSpot])) targetWorld)
  else st.

(** Whether [arr.find(obj => p obj)] throws, where [p] reads [obj.id]: an
    element that is [null] or [undefined] is met before any element
    satisfies [p]. *)
Fixpoint js_find_throws (p : value → bool) (arr : list value) : bool :=
  match arr with
  | [] => false
  | obj :: arr => nullish obj || (negb (p obj) && js_find_throws p arr)
  end.

(** Whether the [switch] throws: [find] (lines 58 and 77) or [filter]
    (line 70) reads [obj.id] of an entry of [targetWorld.objects] that is
    [null] or [undefined].  The world is then as before the change. *)
Definition lookup_throws (st : heap * World) (change : Change) : bool :=
  let '(h, targetWorld) := st in
  if bool_decide (type change = "add") then
    if negb (truthy (object change))
       || negb (truthy (get_prop h (object change) "id")) then false
    else
      js_find_throws (λ obj, strict_eq (get_prop h obj "id")
                                       (get_prop h (object change) "id"))
                     (objects targetWorld)
  else if bool_decide (type change = "remove") then
    if negb (truthy (targetId change)) then false
    else existsb nullish (objects targetWorld)
  else if bool_decide (type change = "modify") then
    if negb (truthy (targetId change)) || negb (truthy (properties change)) then false
    else
      js_find_throws (λ obj, strict_eq (get_prop h obj "id") (targetId change))
                     (objects targetWorld)
  else false.

(** Whether a message of the [switch] throws, converting an id or a
    coordinate to a string: the warning for a duplicate (line 60), the
    warning for a target that is not found (line 81), and the message for a
    new blink spot (line 99), which comes after the blink spot is stored. *)
Definition message_throws (st : heap * World) (change : Change) : bool :=
  let '(h, targetWorld) := st in
  if bool_decide (type change = "add") then
    if negb (truthy (object change))
       || negb (truthy (get_prop h (object change) "id")) then false
    else
      let existingObject :=
        js_find (λ obj, strict_eq (get_prop h obj "id")
                                  (get_prop h (object change) "id"))
                (objects targetWorld) in
      if truthy existingObject
      then to_string_throws h (get_prop h (object change) "id")
      else false
  else if bool_decide (type change = "remove") then false
  else if bool_decide (type change = "modify") then
    if negb (truthy (targetId change)) || negb (truthy (properties change)) then false
    else
      let targetObject :=
        js_find (λ obj, strict_eq (get_prop h obj "id") (targetId change))
                (objects targetWorld) in
      if truthy targetObject then false
      else to_string_throws h (targetId change)
  else if bool_decide (type change = "createBlinkSpot") then
    if negb (truthy (coordinates change)) then false
    else
      to_string_throws h (get_prop h (coordinates change) "x")
      || to_string_throws h (get_prop h (coordinates change) "y")
      || to_string_throws h (get_prop h (coordinates change) "z")
  else false.

(** How a call that mutates its arguments ends: it returns or it throws, and
    either way it leaves a store and a world behind. *)
Inductive outcome :=
| Completed (st : heap * World)
| Thrown (st : heap * World).

Definition state_left (o : outcome) : heap * World :=
  match o with
  | Completed st | Thrown st => st
  end.

Definition has_thrown (o : outcome) : bool :=
  match o with
  | Completed _ => false
  | Thrown _ => true
  end.

(** One turn of the loop of [alterReality]: the message with
    [JSON.stringify(change)], then the [switch], which can throw before it
    has changed anything or in the message that follows what it did. *)
Definition apply_change (st : heap * World) (change : Change) : outcome :=
  if stringify_throws st.1 change then Thrown st
  else if lookup_throws st change then Thrown st
  else if message_throws st change then Thrown (apply_switch st change)
  else Completed (apply_switch st change).

(** Whether that turn throws before the [switch] has changed anything. *)
Definition change_throws (st : heap * World) (change : Change) : bool :=
  stringify_throws st.1 change || lookup_throws st change.

(** The loop: a turn that throws ends the call, the changes after it are
    not applied. *)
Fixpoint alterReality_loop (st : heap * World) (changes : list Change) : outcome :=
  match changes with
  | [] => Completed st
  | change :: changes =>
      match apply_change st change with
      | Completed st => alterReality_loop st changes
      | Thrown st => Thrown st
      end
  end.

(** The store and the world that [alterReality(targetWorld, changes)] leaves
    behind, whether it returns or throws. *)
Definition alterReality (h : heap) (targetWorld : World) (changes : list Change)
    : heap * World :=
  state_left (alterReality_loop (h, targetWorld) changes).

(** Whether [alterReality(targetWorld, changes)] throws. *)
Definition alterReality_throws (h : heap) (targetWorld : World) (changes : list Change)
    : bool :=
  has_thrown (alterReality_loop (h, targetWorld) changes).

(** The ids of the entities of a world, in the order of its [objects]. *)
Definition ids (h : heap) (objs : list value) : list value :=
  (λ obj, get_prop h obj "id") <$> objs.

Definition world_ids (st : heap * World) : list value :=
  ids st.1 (objects st.2).

(** *** loadWorld *)

(** The outcome of a call that may throw. *)
Inductive completion (E A : Type) :=
| Return (a : A)
| Throw (e : E).
Arguments Return {E A} a.
Arguments Throw {E A} e.

Definition try_catch {E A} (body : completion E A) (handler : E → completion E A)
    : completion E A :=
  match body with
  | Return a => Return a
  | Throw e => handler e
  end.

(** What [loadWorld] hands back: whatever [JSON.parse] decoded, or a world
    made by [createWorld]. *)
Inductive Loaded (Json : Type) :=
| Decoded (loadedWorld : Json)
| Fresh (w : World).
Arguments Decoded {Json} loadedWorld.
Arguments Fresh {Json} w.

Section Snapshot.
(** [JSON.parse] belongs to the host: it returns a decoded value or throws. *)
Context {Json Exn : Type} (JSON_parse : string → completion Exn Json).

Definition loadWorld (savedState : string) : completion Exn (Loaded Json) :=
  try_catch
    (match JSON_parse savedState with
     | Return loadedWorld => Return (Decoded loadedWorld)
     | Throw e => Throw e
     end)
    (λ error,
       Return (Fresh (createWorld {| x := Qc_of_Z 10; y := Qc_of_Z 10; z := Qc_of_Z 10 |}
                                  "default" "default" []))).
End Snapshot.

End RealityMatrix.

(** ** Engine/QuantumCore.js *)

Module QuantumCore.

(** The conversions of the host that the core reaches through [join], [<] and
    computed member access.  [ObjectToString] is the string that the
    conversion of an object gives when it does not throw
    ([to_string_throws]): for an array the host joins the renderings of its
    elements with commas, for a plain object it gives what its [toString]
    gives.  It does not read the two keys that the core writes: it depends on
    the elements of arrays and on the other properties only. *)
Class Runtime := {
  NumberToString : Qc → string;
  StringToNumber : string → option Qc;
  ObjectToNumber : heap → loc → option Qc;
  ObjectToString : heap → loc → string;
  ObjectToString_tags (h h' : heap) (l : loc) :
    (∀ l', elems (cell_of h' l') = elems (cell_of h l')) →
    (∀ l' k, k ≠ "isEntangled" → k ≠ "entangledWith" →
             props (cell_of h' l') !! k = props (cell_of h l') !! k) →
    ObjectToString h' l = ObjectToString h l;
}.

Section Core.
Context `{Runtime}.

(** [ToNumber]; [None] is NaN. *)
Definition to_number (h : heap) (v : value) : option Qc :=
  match v with
  | VUndefined => None
  | VNull => Some 0
  | VBool b => Some (if b then 1 else 0)
  | VNum q => Some q
  | VStr s => StringToNumber s
  | VRef l => ObjectToNumber h l
  end.

(** [n < v] for a number [n]; a comparison with NaN is false. *)
Definition number_lt (h : heap) (n : Qc) (v : value) : bool :=
  match to_number h v with
  | Some q => bool_decide (n < q)
  | None => false
  end.

(** [v < n] for a number [n]. *)
Definition lt_number (h : heap) (v : value) (n : Qc) : bool :=
  match to_number h v with
  | Some q => bool_decide (q < n)
  | None => false
  end.

(** How [join] renders one element: [undefined] and [null] as nothing, any
    other value through its conversion to a string. *)
Definition join_elem (h : heap) (v : value) : string :=
  match v with
  | VUndefined | VNull => ""
  | VBool b => if b then "true" else "false"
  | VNum q => NumberToString q
  | VStr s => s
  | VRef l => ObjectToString h l
  end.

(** The position a number names in an array, if it names one. *)
Definition array_index (n : Qc) : option nat :=
  if bool_decide (Qden n = 1%positive) && bool_decide (0 ≤ Qnum n)%Z
  then Some (Z.to_nat (Qnum n)) else None.

(** [v.length]. *)
Definition js_length (h : heap) (v : value) : value :=
  match v with
  | VRef l =>
      let c := cell_of h l in
      match elems c with
      | Some es => VNum (Qc_of_Z (Z.of_nat (length es)))
      | None => default VUndefined (props c !! "length")
      end
  | VStr s => VNum (Qc_of_Z (Z.of_nat (String.length s)))
  | _ => VUndefined
  end.

(** [v[n]] for a number [n]. *)
Definition js_index (h : heap) (v : value) (n : Qc) : value :=
  match v with
  | VRef l =>
      let c := cell_of h l in
      match elems c, array_index n with
      | Some es, Some i => default VUndefined (es !! i)
      | _, _ => default VUndefined (props c !! NumberToString n)
      end
  | VStr s =>
      match array_index n with
      | Some i => from_option (λ a, VStr (String a "")) VUndefined
                              (String.list_ascii_of_string s !! i)
      | None => VUndefined
      end
  | _ => VUndefined
  end.

(** [Array.isArray(v)]. *)
Definition isArray (h : heap) (v : value) : bool :=
  match v with
  | VRef l => bool_decide (is_Some (elems (cell_of h l)))
  | _ => false
  end.

(** Whether [createEntanglement(objects)] throws: with two objects or more
    the [join] of line 44 converts the ids to strings, before anything is
    written. *)
Definition createEntanglement_throws (h : heap) (objects : list loc) : bool :=
  negb (bool_decide (length objects < 2)%nat)
  && existsb (λ o, to_string_throws h (get_prop h (VRef o) "id")) objects.

(** The store that [createEntanglement(objects)] leaves behind. *)
Definition createEntanglement (h : heap) (objects : list loc) : heap :=
  if bool_decide (length objects < 2)%nat then h
  else if existsb (λ o, to_string_throws h (get_prop h (VRef o) "id")) objects then h
  else
    let entangledIds :=
      String.concat ", " ((λ o, join_elem h (get_prop h (VRef o) "id")) <$> objects) in
    foldl (λ h obj,
             let h := set_prop h obj "isEntangled" (VBool true) in
             set_prop h obj "entangledWith" (VStr entangledIds))
          h objects.

(** Whether [breakEntanglement(object)] throws: the message of either branch
    converts the id of the object to a string. *)
Definition breakEntanglement_throws (h : heap) (object : loc) : bool :=
  to_string_throws h (get_prop h (VRef object) "id").

(** The store that [breakEntanglement(object)] leaves behind: in the branch
    that writes, the message comes first (line 60). *)
Definition breakEntanglement (h : heap) (object : loc) : heap :=
  if truthy (get_prop h (VRef object) "isEntangled") then
    if to_string_throws h (get_prop h (VRef object) "id") then h
    else
      let h := set_prop h object "isEntangled" (VBool false) in
      set_prop h object "entangledWith" VNull
  else h.

(** The store that [applySuperposition] and [changeCurrentState] leave
    behind.  Their messages come after the writes (lines 84 and 97) or where
    nothing is written (lines 77 and 99): the store is the same whether a
    message throws or not.

    [initialStateIndex] is [None] when the caller leaves the argument out. *)
Definition applySuperposition (h : heap) (object : loc) (states : value)
    (initialStateIndex : option Qc) : heap :=
  let initialStateIndex := default 0 initialStateIndex in
  if negb (isArray h states) || lt_number h (js_length h states) 2 then h
  else
    let h := set_prop h object "states" states in
    let h := set_prop h object "currentStateIndex" (VNum initialStateIndex) in
    set_prop h object "currentState" (js_index h states initialStateIndex).

Definition changeCurrentState (h : heap) (object : loc) (newStateIndex : Qc) : heap :=
  let states := get_prop h (VRef object) "states" in
  if truthy states && bool_decide (0 ≤ newStateIndex)
     && number_lt h newStateIndex (js_length h states) then
    let h := set_prop h object "currentStateIndex" (VNum newStateIndex) in
    set_prop h object "currentState"
             (js_index h (get_prop h (VRef object) "states") newStateIndex)
  else h.

End Core.

Record TunnelResult := { success : bool; description : string }.

(** [sample] is what this call's [Math.random()] returns, a number in
    [0, 1).  The result is [None] when the call throws: the message of the
    successful branch (line 114) converts the ids of the two objects to
    strings before the result is returned. *)
Definition applyTunneling (h : heap) (sample : Qc) (object1 object2 : loc)
    (probability : Qc) : option TunnelResult :=
  if bool_decide (sample < probability) then
    if to_string_throws h (get_prop h (VRef object1) "id")
       || to_string_throws h (get_prop h (VRef object2) "id")
    then None
    else Some {| success := true; description := "Quantum Tunneling Event" |}
  else
    Some {| success := false; description := "Tunneling attempt failed" |}.

End QuantumCore.

Import RealityMatrix QuantumCore.

(** ** Worlds and stores used as concrete inputs *)

Definition unit_box : Vec3 := {| x := 1; y := 1; z := 1 |}.

Definition playing_world : World := createWorld unit_box "default" "default" [].

(** A world that is fast-forwarding at twice the normal speed. *)
Definition fast_world : World :=
  controlTime playing_world "FAST FORWARD" (Some (Finite 2)).

(** The objects and changes of the example run at the end of
    [RealityMatrix.js]: location 1 is [devObj1], 2 the property map of
    [changeModifyDev], 3 is [playerObj1], 4 and 5 are their positions; 6 and
    7 are the property maps [{a: 1}] and [{b: 2}], 8 the coordinates of
    [changeBlinkSpotDev]. *)
Definition plain (fields : list (string * value)) : cell :=
  Cell (list_to_map fields) None.

Definition example_store : heap :=
  list_to_map
    [(1%positive, plain [("id", VStr "devObj1"); ("position", VRef 4); ("color", VStr "blue")]);
     (2%positive, plain [("color", VStr "red"); ("size", VNum (Qc_of_Z 10))]);
     (3%positive, plain [("id", VStr "playerObj1"); ("position", VRef 5); ("color", VStr "green")]);
     (4%positive, plain [("x", VNum (Qc_of_Z 5)); ("y", VNum (Qc_of_Z 5))]);
     (5%positive, plain [("x", VNum (Qc_of_Z 10)); ("y", VNum (Qc_of_Z 10))]);
     (6%positive, plain [("a", VNum 1)]);
     (7%positive, plain [("b", VNum 2)]);
     (8%positive, plain [("x", VNum (Qc_of_Z 20)); ("y", VNum (Qc_of_Z 30));
                         ("z", VNum 0)])].

Definition change_add (o : value) : Change :=
  {| type := "add"; object := o; targetId := VUndefined;
     properties := VUndefined; coordinates := VUndefined |}.

Definition change_remove (tid : value) : Change :=
  {| type := "remove"; object := VUndefined; targetId := tid;
     properties := VUndefined; coordinates := VUndefined |}.

Definition change_modify (tid props : value) : Change :=
  {| type := "modify"; object := VUndefined; targetId := tid;
     properties := props; coordinates := VUndefined |}.

Definition changeAddDev : Change := change_add (VRef 1).
Definition changeRemoveDev : Change := change_remove (VStr "devObj1").
Definition changeModifyDev : Change := change_modify (VStr "devObj1") (VRef 2).
Definition changeAddPlayer : Change := change_add (VRef 3).
Definition changeBlinkSpotDev : Change :=
  {| type := "createBlinkSpot"; object := VUndefined; targetId := VUndefined;
     properties := VUndefined; coordinates := VRef 8 |}.

(** The example store with one more object at location 10, which holds a
    reference to itself: [o = {id: "loop"}; o.self = o]. *)
Definition loop_store : heap :=
  <[10%positive := plain [("id", VStr "loop"); ("self", VRef 10)]]> example_store.


(** [loop_store] with one more object at location 12: an empty array whose
    property [id] is the object at location 10. *)
Definition array_store : heap :=
  <[12%positive := Cell (list_to_map [("id", VRef 10)]) (Some [])]> loop_store.

(** A store for the serialisation of change records: the object at 20 holds
    the object at 21 twice, the objects at 22 and 23 hold each other, and the
    array at 24 holds itself. *)
Definition sharing_store : heap :=
  list_to_map
    [(20%positive, plain [("left", VRef 21); ("right", VRef 21)]);
     (21%positive, plain [("v", VNum 1)]);
     (22%positive, plain [("id", VStr "a"); ("next", VRef 23)]);
     (23%positive, plain [("id", VStr "b"); ("next", VRef 22)]);
     (24%positive, Cell ∅ (Some [VNum 1; VRef 24]))].

(** The developer world once [devObj1] is in it. *)
Definition developerWorld : World :=
  (alterReality example_store playing_world [changeAddDev]).2.


(** A host whose [JSON.parse] throws on exactly one string and hands every
    other string back as the decoded value. *)
Definition picky_parse (s : string) : completion unit string :=
  if bool_decide (s = "not valid data") then Throw () else Return s.

(** The cell of a participant once [createEntanglement] has tagged it. *)
Definition entangled_cell (entangledIds : string) (c : cell) : cell :=
  Cell (<["entangledWith" := VStr entangledIds]>
          (<["isEntangled" := VBool true]> (props c)))
       (elems c).

(** The state slot of an object is its [states] array with its
    [currentStateIndex]; the index is in bounds when it is a number [i] with
    [0 ≤ i < states.length].  An object without a [states] array has no
    slot. *)
Definition state_slot_in_bounds (h : heap) (object : loc) : bool :=
  match get_prop h (VRef object) "states" with
  | VRef a =>
      match elems (cell_of h a) with
      | Some es =>
          match get_prop h (VRef object) "currentStateIndex" with
          | VNum i =>
              bool_decide (0 ≤ i) && bool_decide (i < Qc_of_Z (Z.of_nat (length es)))
          | _ => false
          end
      | None => true
      end
  | _ => true
  end.

(** A call on the state slot of one object. *)
Inductive slot_call :=
| SetStates (states : value) (initialStateIndex : option Qc)
| SetCurrentIndex (newStateIndex : Qc).

Definition run_slot_call `{Runtime} (object : loc) (h : heap) (c : slot_call) : heap :=
  match c with
  | SetStates states initialStateIndex =>
      applySuperposition h object states initialStateIndex
  | SetCurrentIndex newStateIndex => changeCurrentState h object newStateIndex
  end.

(** The initial index of a [SetStates] call lies within the array it comes
    with. *)
Definition initial_index_in_range (h : heap) (c : slot_call) : Prop :=
  match c with
  | SetStates states initialStateIndex =>
      ∀ a es, states = VRef a → elems (cell_of h a) = Some es →
              0 ≤ default 0 initialStateIndex ∧
              default 0 initialStateIndex < Qc_of_Z (Z.of_nat (length es))
  | SetCurrentIndex _ => True
  end.

(** The objects of the example run at the end of [QuantumCore.js]: 1 is
    [obj1], 2 is [obj2], 3 is [myObject], 4 the array
    [["red", "green", "blue"]], 5 and 6 the positions of [obj1] and [obj2]. *)
Definition quantum_store : heap :=
  list_to_map
    [(1%positive, plain [("id", VStr "A"); ("position", VRef 5)]);
     (2%positive, plain [("id", VStr "B"); ("position", VRef 6)]);
     (3%positive, plain [("id", VStr "C"); ("color", VStr "red")]);
     (4%positive, Cell ∅ (Some [VStr "red"; VStr "green"; VStr "blue"]));
     (5%positive, plain [("x", VNum 0); ("y", VNum 0)]);
     (6%positive, plain [("x", VNum (Qc_of_Z 10)); ("y", VNum 0)])].

(** [quantum_store] with the array [["x", "y"]] at location 7 as the id of
    [obj1]. *)
Definition array_id_store : heap :=
  <[7%positive := Cell ∅ (Some [VStr "x"; VStr "y"])]>
    (<[1%positive := plain [("id", VRef 7); ("position", VRef 5)]]> quantum_store).

(** [quantum_store] with an object at location 8 whose own property
    [toString] is the number 5, as the id of [obj1]; an array at location 9
    that holds that object; and an array at location 10 whose only element
    is the array itself. *)
Definition unconvertible_store : heap :=
  <[8%positive := plain [("toString", VNum (Qc_of_Z 5))]]>
    (<[9%positive := Cell ∅ (Some [VStr "a"; VRef 8])]>
       (<[10%positive := Cell ∅ (Some [VRef 10])]>
          (<[1%positive := plain [("id", VRef 8); ("position", VRef 5)]]>
             quantum_store))).

(** How a host renders an object: a plain object as ["[object Object]"], an
    array as the renderings of its elements joined by commas, [undefined] and
    [null] among them as nothing.  [depth] bounds the nesting of arrays that
    is followed. *)
Fixpoint render_object (elems_of : loc → option (list value)) (depth : nat) (l : loc)
    : string :=
  match elems_of l with
  | None => "[object Object]"
  | Some es =>
      String.concat ","
        ((λ v, match v with
               | VUndefined | VNull => ""
               | VBool b => if b then "true" else "false"
               | VNum q => pretty (Qnum q)
               | VStr s => s
               | VRef l' =>
                   match depth with
                   | O => ""
                   | S depth => render_object elems_of depth l'
                   end
               end) <$> es)
  end.

(** A host for stores whose numbers are whole and whose arrays nest less than
    sixteen deep: it prints numbers in decimal, renders objects as
    [render_object] does, and reads no number out of a string or an object. *)
Definition integer_runtime : Runtime.
Proof.
  refine {| NumberToString := λ q, pretty (Qnum q);
            StringToNumber := λ _, None;
            ObjectToNumber := λ _ _, None;
            ObjectToString := λ h l, render_object (λ l, elems (cell_of h l)) 16 l |}.
  intros h h' l Helems _. generalize 16%nat. intros depth. revert l.
  induction depth as [| depth IH]; intros l; cbn [render_object];
    rewrite Helems; (destruct (elems (cell_of h l)) as [es |]; [| reflexivity]);
    f_equal; apply list_fmap_ext; intros _ v _; destruct v; (reflexivity || apply IH).
Defined.

(** A run of the time controller: the calls of [controlTime] in order, each
    with its state label and its speed argument. *)
Definition run_time_calls (w : World) (calls : list (string * option number)) : World :=
  foldl (λ w call, controlTime w call.1 call.2) w calls.


(** The world with [devObj1] and [playerObj1] in it. *)
Definition sharedWorld : World :=
  (alterReality example_store playing_world [changeAddDev; changeAddPlayer]).2.

(** The slot of an object is consistent when [currentState] is the element
    of the [states] array at [currentStateIndex] ([undefined] beyond its
    end), whenever that index names a position. *)
Definition state_slot_consistent (h : heap) (object : loc) : Prop :=
  ∀ a es i k,
    get_prop h (VRef object) "states" = VRef a →
    elems (cell_of h a) = Some es →
    get_prop h (VRef object) "currentStateIndex" = VNum i →
    array_index i = Some k →
    get_prop h (VRef object) "currentState" = default VUndefined (es !! k).

(** Every blink spot sits at the position its id counts. *)
Definition spots_numbered (w : World) : Prop :=
  ∀ i spot, default [] (blinkSpots w) !! i = Some spot →
            spot_id spot = "blinkSpot-" +:+ pretty i.

(** Closed conjunctions of equations between computed values. *)
Ltac by_computation :=
  vm_compute; repeat (split; [reflexivity |]); reflexivity.

(** * Properties of the time controller *)

Lemma Qc_0_lt_1 : 0 < 1.
Proof. reflexivity. Qed.

Lemma Qc_not_le_lt (a b : Qc) : ¬ a ≤ b → b < a.
Proof. intros Hn. by apply Qclt_nge. Qed.

(** A number is either at most 0 or above 0, unless it is NaN. *)
Lemma number_le_0_or_gt_0 (n : number) :
  n ≠ NaN → number_le_0 n = negb (number_gt_0 n).
Proof.
  destruct n as [q | | |]; cbn; try done. intros _.
  case_bool_decide as Hle.
  - rewrite bool_decide_eq_false_2; [done |]. by apply Qcle_not_lt.
  - rewrite bool_decide_eq_true_2; [done |]. by apply Qc_not_le_lt.
Qed.

Lemma controlTime_valid_plain (w : World) (state : string) (speed : option number) :
  state ∈ time_states → state ≠ "FAST FORWARD" → state ≠ "REWIND" →
  controlTime w state speed = set_timeSpeedMultiplier 1 (set_timeState state w).
Proof.
  intros Hin Hff Hrw. unfold controlTime.
  rewrite bool_decide_eq_true_2 by done.
  by rewrite !(bool_decide_eq_false_2 (state = _)) by done.
Qed.

Lemma controlTime_valid_speed (w : World) (state : string) (speed : option number) :
  state = "FAST FORWARD" ∨ state = "REWIND" →
  controlTime w state speed =
    if number_le_0 (default (Finite 1) speed)
    then set_timeSpeedMultiplier 1 (set_timeState "PLAY" w)
    else set_timeSpeedMultiplier (default (Finite 1) speed) (set_timeState state w).
Proof.
  intros Hst.
  assert (Hin : state ∈ time_states).
  { destruct Hst as [-> | ->]; by apply (bool_decide_unpack _). }
  unfold controlTime. rewrite (bool_decide_eq_true_2 _ Hin).
  destruct Hst as [-> | ->].
  - rewrite (bool_decide_eq_true_2 ("FAST FORWARD" = "FAST FORWARD")) by done.
    by destruct (number_le_0 _).
  - rewrite (bool_decide_eq_false_2 ("REWIND" = "FAST FORWARD")) by done.
    rewrite (bool_decide_eq_true_2 ("REWIND" = "REWIND")) by done.
    by destruct (number_le_0 _).
Qed.

Lemma controlTime_invalid (w : World) (state : string) (speed : option number) :
  state ∉ time_states →
  controlTime w state speed = set_timeSpeedMultiplier 1 w.
Proof.
  intros Hnin. unfold controlTime.
  rewrite bool_decide_eq_false_2 by done. by destruct w.
Qed.

(** C1, as the claim states it, fails: [fast_world] runs at speed 2, the label
    ["UNKNOWN"] is none of the five, and after the call the multiplier is 1,
    not the 2 it was before. *)
Lemma controlTime_invalid_state_loses_speed :
  ("UNKNOWN" ∉ time_states) ∧
  timeSpeedMultiplier fast_world = 2 ∧
  timeSpeedMultiplier (controlTime fast_world "UNKNOWN" None) = 1 ∧
  (timeSpeedMultiplier (controlTime fast_world "UNKNOWN" None)
     ≠ timeSpeedMultiplier fast_world).
Proof.
  split; [by apply (bool_decide_eq_false_1 _) |].
  split; [reflexivity |]. split; [reflexivity |]. discriminate.
Qed.

(** C1 (amended): for a state label that is none of the five valid labels,
    [controlTime] keeps [timeState] at its value before the call and sets
    [timeSpeedMultiplier] to 1, whatever the speed argument; no other field
    of the world changes. *)
Theorem controlTime_invalid_state (w : World) (state : string) (speed : option number) :
  state ∉ time_states →
  timeState (controlTime w state speed) = timeState w ∧
  timeSpeedMultiplier (controlTime w state speed) = 1 ∧
  controlTime w state speed = set_timeSpeedMultiplier 1 w.
Proof.
  intros Hnin. by rewrite controlTime_invalid.
Qed.

Lemma controlTime_invalid_state_witness :
  timeState (controlTime fast_world "UNKNOWN" None) = timeState fast_world ∧
  timeSpeedMultiplier (controlTime fast_world "UNKNOWN" None) = 1 ∧
  controlTime fast_world "UNKNOWN" None = set_timeSpeedMultiplier 1 fast_world.
Proof.
  apply (controlTime_invalid_state fast_world "UNKNOWN" None).
  by apply (bool_decide_eq_false_1 _).
Defined.

(** C7: with state FAST FORWARD or REWIND, a speed [≤ 0] leaves the world in
    PLAY at speed 1 (whatever state it was in before), and a speed [> 0] sets
    the requested state with the given speed as multiplier. *)
Theorem controlTime_fast_forward_rewind (w : World) (state : string) (speed : Qc) :
  state = "FAST FORWARD" ∨ state = "REWIND" →
  (speed ≤ 0 →
     timeState (controlTime w state (Some (Finite speed))) = "PLAY" ∧
     timeSpeedMultiplier (controlTime w state (Some (Finite speed))) = 1) ∧
  (0 < speed →
     timeState (controlTime w state (Some (Finite speed))) = state ∧
     timeSpeedMultiplier (controlTime w state (Some (Finite speed))) = speed).
Proof.
  intros Hst. rewrite (controlTime_valid_speed w state (Some (Finite speed)) Hst).
  cbn [default from_option id number_le_0].
  split; intros Hs.
  - by rewrite bool_decide_eq_true_2.
  - rewrite bool_decide_eq_false_2; [done |]. by apply Qclt_not_le.
Qed.

Lemma controlTime_fast_forward_rewind_witness :
  (timeState (controlTime fast_world "REWIND" (Some (Finite (- 1)))) = "PLAY" ∧
   timeSpeedMultiplier (controlTime fast_world "REWIND" (Some (Finite (- 1)))) = 1) ∧
  (timeState (controlTime playing_world "FAST FORWARD" (Some (Finite 2))) = "FAST FORWARD" ∧
   timeSpeedMultiplier (controlTime playing_world "FAST FORWARD" (Some (Finite 2))) = 2).
Proof.
  split.
  - apply (proj1 (controlTime_fast_forward_rewind fast_world "REWIND" (- 1)
                    (or_intror eq_refl))).
    vm_compute. discriminate.
  - apply (proj2 (controlTime_fast_forward_rewind playing_world "FAST FORWARD" 2
                    (or_introl eq_refl))).
    vm_compute. reflexivity.
Defined.

(** X25: what does hold of the multiplier: after a call whose speed is not
    NaN (given or left out) it is above 0: it is 1, or it is the caller's
    speed and that speed is above 0. *)
Theorem controlTime_speed_positive (w : World) (state : string) (speed : option number) :
  speed ≠ Some NaN →
  number_gt_0 (timeSpeedMultiplier (controlTime w state speed)) = true ∧
  (timeSpeedMultiplier (controlTime w state speed) = 1 ∨
   (timeSpeedMultiplier (controlTime w state speed) = default (Finite 1) speed ∧
    number_gt_0 (default (Finite 1) speed) = true)).
Proof.
  intros Hnan.
  assert (Hnan' : default (Finite 1) speed ≠ NaN) by (destruct speed; cbn; congruence).
  destruct (decide (state ∈ time_states)) as [Hin | Hnin].
  - destruct (decide (state = "FAST FORWARD" ∨ state = "REWIND")) as [Hsp | Hpl].
    + rewrite (controlTime_valid_speed w state speed Hsp).
      rewrite (number_le_0_or_gt_0 _ Hnan').
      destruct (number_gt_0 (default (Finite 1) speed)) eqn:Hgt; cbn.
      * split; [done | by right].
      * split; [done | by left].
    + rewrite controlTime_valid_plain by tauto. cbn.
      split; [done | by left].
  - rewrite controlTime_invalid by done. cbn.
    split; [done | by left].
Qed.

Lemma controlTime_speed_positive_witness :
  number_gt_0 (timeSpeedMultiplier
                 (controlTime playing_world "REWIND" (Some PosInfinity))) = true ∧
  number_gt_0 (timeSpeedMultiplier
                 (controlTime fast_world "FAST FORWARD" (Some (Finite (- 2))))) = true.
Proof.
  split.
  - apply (proj1 (controlTime_speed_positive playing_world "REWIND" (Some PosInfinity)
                    ltac:(discriminate))).
  - apply (proj1 (controlTime_speed_positive fast_world "FAST FORWARD"
                    (Some (Finite (- 2))) ltac:(discriminate))).
Defined.

(** C10 (the code departs from the claim): called with FAST FORWARD or
    REWIND and the speed NaN, [controlTime] stores NaN as the multiplier.
    The guard [speed <= 0] is false of NaN, so the state is set and nothing
    reverts to PLAY at speed 1; the multiplier is then not above 0. *)
Theorem controlTime_speed_NaN (w : World) :
  timeState (controlTime w "FAST FORWARD" (Some NaN)) = "FAST FORWARD" ∧
  timeSpeedMultiplier (controlTime w "FAST FORWARD" (Some NaN)) = NaN ∧
  timeState (controlTime w "REWIND" (Some NaN)) = "REWIND" ∧
  timeSpeedMultiplier (controlTime w "REWIND" (Some NaN)) = NaN ∧
  number_gt_0 (timeSpeedMultiplier (controlTime w "FAST FORWARD" (Some NaN))) = false ∧
  number_gt_0 (timeSpeedMultiplier (controlTime w "REWIND" (Some NaN))) = false.
Proof.
  rewrite !controlTime_valid_speed by tauto. cbn. by split_and!.
Qed.

(** * Properties of the change protocol *)

(** The example run of [RealityMatrix.js] on the developer world: [devObj1]
    is added and removed, the modification finds no target, one blink spot is
    recorded, and the store is as before; pausing then sets the state. *)
Example developer_world_run :
  alterReality example_store playing_world
    [changeAddDev; changeRemoveDev; changeModifyDev; changeBlinkSpotDev]
  = (example_store,
     set_blinkSpots
       (Some [{| spot_id := "blinkSpot-0"; spot_coordinates := VRef 8;
                 spot_time := "PLAY" |}])
       playing_world) ∧
  timeState (controlTime playing_world "PAUSE" None) = "PAUSE" ∧
  timeSpeedMultiplier (controlTime playing_world "PAUSE" None) = 1.
Proof. by_computation. Qed.


Lemma existsb_ext_all {A : Type} (f g : A → bool) (l : list A) :
  (∀ a, f a = g a) → existsb f l = existsb g l.
Proof. intros Hfg. induction l as [| a l IH]; cbn; [done |]. by rewrite Hfg, IH. Qed.

(** The walk of [JSON.stringify] needs no more fuel than the store has
    objects: with that much, more fuel gives the same answer. *)
Lemma reaches_itself_fuel (n m : nat) (h : heap) (path : list loc) (v : value) :
  (size h ≤ n)%nat → (size h ≤ m)%nat →
  reaches_itself n h path v = reaches_itself m h path v.
Proof.
  revert m h path v. induction n as [| n IH]; intros m h path v Hn Hm.
  - assert (h = ∅) as -> by (apply map_size_empty_iff; lia).
    destruct v, m; cbn; try done; by rewrite lookup_empty.
  - destruct m as [| m].
    + assert (h = ∅) as -> by (apply map_size_empty_iff; lia).
      destruct v; cbn; try done; by rewrite lookup_empty.
    + destruct v as [| | | | | l]; cbn; try done.
      destruct (h !! l) as [c |] eqn:Hl; [| done]. f_equal.
      apply existsb_ext_all. intros v.
      pose proof (map_size_delete_Some l h (mk_is_Some _ _ Hl)) as Hsize.
      assert (size h ≠ 0)%nat.
      { intros Hz. apply map_size_empty_iff in Hz. by rewrite Hz, lookup_empty in Hl. }
      apply IH; lia.
Qed.

(** [JSON.stringify] serialises an object that is met twice without a throw
    when neither meeting is below the other; it throws on two objects that
    hold each other and on an array that holds itself. *)
Example serialisation_run :
  stringify_throws sharing_store (change_add (VRef 20)) = false ∧
  stringify_throws sharing_store (change_add (VRef 22)) = true ∧
  stringify_throws sharing_store (change_remove (VRef 23)) = true ∧
  stringify_throws sharing_store (change_modify (VStr "x") (VRef 24)) = true ∧
  stringify_throws sharing_store (change_modify (VRef 21) (VRef 21)) = false ∧
  stringify_throws example_store changeAddDev = false.
Proof. by_computation. Qed.

(** An entry of [objects] that is [null] makes [filter] throw, and [find]
    when it gets that far: behind [devObj1] it is not reached by the search
    for [devObj1], in front of it it is. *)
Example null_entry_run :
  alterReality_throws example_store
    (set_objects [VRef 1; VNull] playing_world) [changeAddDev] = false ∧
  alterReality_throws example_store
    (set_objects [VNull; VRef 1] playing_world) [changeAddDev] = true ∧
  alterReality_throws example_store
    (set_objects [VRef 1; VNull] playing_world) [changeRemoveDev] = true ∧
  alterReality example_store
    (set_objects [VRef 1; VNull] playing_world) [changeRemoveDev; changeAddPlayer]
    = (example_store, set_objects [VRef 1; VNull] playing_world).
Proof. by_computation. Qed.

(** The loop of [alterReality], one change at a time. *)
Lemma alterReality_nil (h : heap) (w : World) : alterReality h w [] = (h, w).
Proof. done. Qed.

Lemma alterReality_cons (h : heap) (w : World) (c : Change) (changes : list Change) :
  alterReality h w (c :: changes) =
    if change_throws (h, w) c then (h, w)
    else if message_throws (h, w) c then apply_switch (h, w) c
    else alterReality (apply_switch (h, w) c).1 (apply_switch (h, w) c).2 changes.
Proof.
  unfold alterReality, change_throws. cbn [alterReality_loop]. unfold apply_change.
  cbn [fst]. destruct (stringify_throws h c); [done |].
  destruct (lookup_throws (h, w) c); [done |].
  destruct (message_throws (h, w) c); [done |]. by destruct (apply_switch (h, w) c).
Qed.

Lemma alterReality_one (h : heap) (w : World) (c : Change) :
  alterReality h w [c] = if change_throws (h, w) c then (h, w) else apply_switch (h, w) c.
Proof.
  rewrite alterReality_cons. destruct (change_throws (h, w) c); [done |].
  destruct (message_throws (h, w) c); [done |]. by destruct (apply_switch (h, w) c).
Qed.

Lemma alterReality_throws_cons (h : heap) (w : World) (c : Change)
    (changes : list Change) :
  alterReality_throws h w (c :: changes) =
    change_throws (h, w) c || message_throws (h, w) c
    || alterReality_throws (apply_switch (h, w) c).1 (apply_switch (h, w) c).2 changes.
Proof.
  unfold alterReality_throws, change_throws. cbn [alterReality_loop].
  unfold apply_change. cbn [fst]. destruct (stringify_throws h c); [done |].
  destruct (lookup_throws (h, w) c); [done |].
  destruct (message_throws (h, w) c); [done |]. by destruct (apply_switch (h, w) c).
Qed.

Lemma alterReality_throws_one (h : heap) (w : World) (c : Change) :
  alterReality_throws h w [c] = change_throws (h, w) c || message_throws (h, w) c.
Proof. rewrite alterReality_throws_cons. apply orb_false_r. Qed.

(** After a change whose message does not throw the loop goes on. *)
Lemma alterReality_cons_quiet (h : heap) (w : World) (c : Change)
    (changes : list Change) :
  message_throws (h, w) c = false →
  alterReality h w (c :: changes) =
    if change_throws (h, w) c then (h, w)
    else alterReality (apply_switch (h, w) c).1 (apply_switch (h, w) c).2 changes.
Proof. intros Hmsg. by rewrite alterReality_cons, Hmsg. Qed.


(** What every turn of the [switch] keeps, the state a batch leaves behind
    has, whether the batch runs to its end or is abandoned on the way. *)
Lemma alterReality_invariant (P : heap * World → Prop) (Q : Change → Prop)
    (h : heap) (w : World) (changes : list Change) :
  Forall Q changes →
  (∀ st c, Q c → P st → P (apply_switch st c)) →
  P (h, w) → P (alterReality h w changes).
Proof.
  intros Hall Hstep. unfold alterReality. generalize (h, w).
  induction Hall as [| c changes Hc _ IH]; intros st Hst; cbn [alterReality_loop];
    [done |].
  unfold apply_change. destruct (stringify_throws st.1 c); [done |].
  destruct (lookup_throws st c); [done |].
  destruct (message_throws st c); [by apply Hstep |].
  apply IH. by apply Hstep.
Qed.

(** [find] and [filter] throw on entries that are [null] or [undefined]
    only. *)
Lemma js_find_throws_nullish (p : value → bool) (arr : list value) :
  existsb nullish arr = false → js_find_throws p arr = false.
Proof.
  induction arr as [| o arr IH]; cbn; [done |].
  intros [-> Harr]%orb_false_elim. rewrite IH by done. by rewrite andb_false_r.
Qed.

Lemma js_find_throws_no_match (p : value → bool) (arr : list value) :
  (∀ o, o ∈ arr → p o = false) → js_find_throws p arr = existsb nullish arr.
Proof.
  induction arr as [| o arr IH]; cbn; [done |]. intros Hp.
  rewrite (Hp o) by by left. rewrite IH; [done |]. intros o' Ho'. apply Hp. by right.
Qed.


Lemma nullish_snoc (arr : list value) (l : loc) :
  existsb nullish (arr ++ [VRef l]) = existsb nullish arr.
Proof. rewrite existsb_app. cbn. by rewrite !orb_false_r. Qed.

Lemma truthy_id_is_object (h : heap) (o : value) :
  truthy (get_prop h o "id") = true → ∃ l, o = VRef l.
Proof. destruct o; cbn; try discriminate. eauto. Qed.

Lemma truthy_id_truthy (h : heap) (o : value) :
  truthy (get_prop h o "id") = true → truthy o = true.
Proof. by intros [l ->]%truthy_id_is_object. Qed.

(** [find] with the id test of [alterReality]: it returns the first entity of
    that id, which is an object, and [undefined] when there is none. *)
Lemma js_find_id_Some (h : heap) (tid : value) (objs : list value) :
  truthy tid = true → tid ∈ ids h objs →
  ∃ l, js_find (λ obj, strict_eq (get_prop h obj "id") tid) objs = VRef l ∧
       VRef l ∈ objs ∧ get_prop h (VRef l) "id" = tid.
Proof.
  intros Htid. unfold js_find, ids, strict_eq.
  induction objs as [| obj objs IH]; cbn [fmap list_fmap List.find].
  - by intros ?%elem_of_nil.
  - intros Hin. case_bool_decide as Heq.
    + destruct (truthy_id_is_object h obj) as [l ->]; [by rewrite Heq |].
      exists l. cbn. split_and!; [done | by left | done].
    + apply elem_of_cons in Hin as [-> | Hin]; [done |].
      destruct (IH Hin) as (l & Hf & Hl & Hid).
      exists l. split_and!; [done | by right | done].
Qed.

Lemma js_find_id_None (h : heap) (tid : value) (objs : list value) :
  tid ∉ ids h objs →
  js_find (λ obj, strict_eq (get_prop h obj "id") tid) objs = VUndefined.
Proof.
  unfold js_find, ids, strict_eq.
  induction objs as [| obj objs IH]; cbn [fmap list_fmap List.find]; [done |].
  intros Hnin. apply not_elem_of_cons in Hnin as [Hne Hnin].
  rewrite bool_decide_eq_false_2 by done. by apply IH.
Qed.

(** What one ["add"] change does. *)
Lemma apply_switch_add (h : heap) (w : World) (c : Change) :
  type c = "add" →
  apply_switch (h, w) c =
    if truthy (get_prop h (object c) "id")
       && bool_decide (get_prop h (object c) "id" ∉ ids h (objects w))
    then (h, set_objects (objects w ++ [object c]) w)
    else (h, w).
Proof.
  intros Hty. unfold apply_switch. rewrite Hty. cbn [bool_decide decide_rel].
  rewrite (bool_decide_eq_true_2 ("add" = "add")) by done.
  destruct (truthy (get_prop h (object c) "id")) eqn:Hid; cbn [andb negb orb].
  - rewrite (truthy_id_truthy _ _ Hid). cbn [negb orb].
    case_bool_decide as Hin.
    + by rewrite js_find_id_None.
    + destruct (js_find_id_Some h _ _ Hid Hin) as (l & -> & _). done.
  - by rewrite orb_true_r.
Qed.

(** What one ["remove"] change does. *)
Lemma apply_switch_remove (h : heap) (w : World) (c : Change) :
  type c = "remove" →
  apply_switch (h, w) c =
    if truthy (targetId c)
    then (h, set_objects
               (filter (λ obj, get_prop h obj "id" ≠ targetId c) (objects w)) w)
    else (h, w).
Proof.
  intros Hty. unfold apply_switch. rewrite Hty.
  rewrite (bool_decide_eq_false_2 ("remove" = "add")) by done.
  rewrite (bool_decide_eq_true_2 ("remove" = "remove")) by done.
  by destruct (truthy (targetId c)).
Qed.

(** Where the [switch] reads the ids of the entities. *)
Lemma lookup_throws_add (h : heap) (w : World) (c : Change) :
  type c = "add" →
  lookup_throws (h, w) c =
    truthy (get_prop h (object c) "id")
    && js_find_throws (λ obj, strict_eq (get_prop h obj "id")
                                        (get_prop h (object c) "id"))
                      (objects w).
Proof.
  intros Hty. unfold lookup_throws. rewrite Hty.
  rewrite (bool_decide_eq_true_2 ("add" = "add")) by done.
  destruct (truthy (get_prop h (object c) "id")) eqn:Hid; cbn [andb negb orb].
  - by rewrite (truthy_id_truthy _ _ Hid).
  - by rewrite orb_true_r.
Qed.

Lemma lookup_throws_remove (h : heap) (w : World) (c : Change) :
  type c = "remove" →
  lookup_throws (h, w) c = truthy (targetId c) && existsb nullish (objects w).
Proof.
  intros Hty. unfold lookup_throws. rewrite Hty.
  rewrite (bool_decide_eq_false_2 ("remove" = "add")) by done.
  rewrite (bool_decide_eq_true_2 ("remove" = "remove")) by done.
  by destruct (truthy (targetId c)).
Qed.

Lemma lookup_throws_modify (h : heap) (w : World) (c : Change) :
  type c = "modify" →
  lookup_throws (h, w) c =
    truthy (targetId c) && truthy (properties c)
    && js_find_throws (λ obj, strict_eq (get_prop h obj "id") (targetId c)) (objects w).
Proof.
  intros Hty. unfold lookup_throws. rewrite Hty.
  rewrite (bool_decide_eq_false_2 ("modify" = "add")) by done.
  rewrite (bool_decide_eq_false_2 ("modify" = "remove")) by done.
  rewrite (bool_decide_eq_true_2 ("modify" = "modify")) by done.
  by destruct (truthy (targetId c)), (truthy (properties c)).
Qed.

Lemma lookup_throws_other (h : heap) (w : World) (c : Change) :
  type c ≠ "add" → type c ≠ "remove" → type c ≠ "modify" →
  lookup_throws (h, w) c = false.
Proof.
  intros Hadd Hrem Hmod. unfold lookup_throws.
  by rewrite !bool_decide_eq_false_2 by done.
Qed.

(** Which messages of the [switch] convert a value to a string. *)
Lemma message_throws_add (h : heap) (w : World) (c : Change) :
  type c = "add" →
  message_throws (h, w) c =
    truthy (get_prop h (object c) "id")
    && bool_decide (get_prop h (object c) "id" ∈ ids h (objects w))
    && to_string_throws h (get_prop h (object c) "id").
Proof.
  intros Hty. unfold message_throws. rewrite Hty.
  rewrite (bool_decide_eq_true_2 ("add" = "add")) by done.
  destruct (truthy (get_prop h (object c) "id")) eqn:Hid; cbn [andb negb orb].
  - rewrite (truthy_id_truthy _ _ Hid). cbn [negb orb].
    case_bool_decide as Hin.
    + destruct (js_find_id_Some h _ _ Hid Hin) as (l & -> & _). done.
    + by rewrite js_find_id_None.
  - by rewrite orb_true_r.
Qed.

Lemma message_throws_add_fresh (h : heap) (w : World) (c : Change) :
  type c = "add" → get_prop h (object c) "id" ∉ ids h (objects w) →
  message_throws (h, w) c = false.
Proof.
  intros Hty Hnin. rewrite message_throws_add by done.
  rewrite (bool_decide_eq_false_2 (_ ∈ _)) by done. by rewrite andb_false_r.
Qed.

Lemma message_throws_remove (h : heap) (w : World) (c : Change) :
  type c = "remove" → message_throws (h, w) c = false.
Proof.
  intros Hty. unfold message_throws. rewrite Hty.
  rewrite (bool_decide_eq_false_2 ("remove" = "add")) by done.
  by rewrite (bool_decide_eq_true_2 ("remove" = "remove")) by done.
Qed.

Lemma message_throws_modify (h : heap) (w : World) (c : Change) :
  type c = "modify" →
  message_throws (h, w) c =
    truthy (targetId c) && truthy (properties c)
    && bool_decide (targetId c ∉ ids h (objects w))
    && to_string_throws h (targetId c).
Proof.
  intros Hty. unfold message_throws. rewrite Hty.
  rewrite (bool_decide_eq_false_2 ("modify" = "add")) by done.
  rewrite (bool_decide_eq_false_2 ("modify" = "remove")) by done.
  rewrite (bool_decide_eq_true_2 ("modify" = "modify")) by done.
  destruct (truthy (targetId c)) eqn:Htid; cbn [negb orb andb]; [| done].
  destruct (truthy (properties c)) eqn:Hprops; cbn [negb orb andb]; [| done].
  case_bool_decide as Hnin.
  - by rewrite js_find_id_None.
  - destruct (js_find_id_Some h _ _ Htid Hnin) as (l & -> & _). done.
Qed.

Lemma message_throws_unknown (h : heap) (w : World) (c : Change) :
  type c ∉ ["add"; "remove"; "modify"; "createBlinkSpot"] →
  message_throws (h, w) c = false.
Proof.
  intros Hty. unfold message_throws.
  rewrite !bool_decide_eq_false_2; [done | | | |];
    intros Heq; apply Hty; rewrite Heq; by apply (bool_decide_unpack _).
Qed.

(** Without an entity of the id looked for, [find] visits every entry. *)
Lemma js_find_throws_absent (h : heap) (tid : value) (objs : list value) :
  tid ∉ ids h objs →
  js_find_throws (λ obj, strict_eq (get_prop h obj "id") tid) objs
    = existsb nullish objs.
Proof.
  intros Hnin. apply js_find_throws_no_match. intros o Ho.
  apply bool_decide_eq_false_2. intros Heq. apply Hnin. rewrite <- Heq.
  unfold ids. apply list_elem_of_fmap. by exists o.
Qed.

Lemma filter_ids_absent (h : heap) (tid : value) (objs : list value) :
  tid ∉ ids h objs →
  filter (λ obj, get_prop h obj "id" ≠ tid) objs = objs.
Proof.
  unfold ids. induction objs as [| obj objs IH]; [done |].
  cbn [fmap list_fmap]. intros [Hne Hnin]%not_elem_of_cons.
  rewrite filter_cons_True by done. f_equal. by apply IH.
Qed.

Lemma ids_filter_absent (h : heap) (tid : value) (objs : list value) :
  tid ∉ ids h (filter (λ obj, get_prop h obj "id" ≠ tid) objs).
Proof.
  unfold ids. intros (obj & Heq & Hin)%list_elem_of_fmap.
  apply list_elem_of_filter in Hin as [Hne _]. done.
Qed.

Lemma NoDup_ids_filter (h : heap) (P : value → Prop) `{!∀ o, Decision (P o)}
    (objs : list value) :
  NoDup (ids h objs) → NoDup (ids h (filter P objs)).
Proof.
  unfold ids. intros Hnd. eapply sublist_NoDup; [exact Hnd |].
  apply fmap_sublist, sublist_filter.
Qed.

Lemma NoDup_ids_snoc (h : heap) (objs : list value) (o : value) :
  NoDup (ids h objs) → get_prop h o "id" ∉ ids h objs →
  NoDup (ids h (objs ++ [o])).
Proof.
  unfold ids. intros Hnd Hnin. rewrite fmap_app. cbn [fmap list_fmap].
  apply NoDup_app. split_and!; [done | | apply NoDup_singleton].
  intros v Hv Hv'%list_elem_of_singleton. by subst.
Qed.

(** An ["add"] or ["remove"] change leaves the store alone and keeps the ids
    of the world pairwise different. *)
Lemma apply_switch_add_remove_unique (h : heap) (w : World) (c : Change) :
  type c = "add" ∨ type c = "remove" →
  NoDup (ids h (objects w)) →
  ∃ w', apply_switch (h, w) c = (h, w') ∧ NoDup (ids h (objects w')).
Proof.
  intros [Hty | Hty] Hnd.
  - rewrite apply_switch_add by done.
    destruct (truthy _); cbn [andb]; [| by eauto].
    case_bool_decide as Hnin; [| by eauto].
    eexists. split; [done |]. by apply NoDup_ids_snoc.
  - rewrite apply_switch_remove by done.
    destruct (truthy _); [| by eauto].
    eexists. split; [done |]. by apply NoDup_ids_filter.
Qed.

Lemma alterReality_add_remove_unique (h : heap) (w : World) (changes : list Change) :
  Forall (λ c, type c = "add" ∨ type c = "remove") changes →
  NoDup (ids h (objects w)) →
  ∃ w', alterReality h w changes = (h, w') ∧ NoDup (ids h (objects w')).
Proof.
  intros Hall Hnd.
  apply (alterReality_invariant
           (λ st, ∃ w', st = (h, w') ∧ NoDup (ids h (objects w'))) _ h w changes Hall);
    [| by eauto].
  intros st c Hc (w1 & -> & Hnd1). by apply apply_switch_add_remove_unique.
Qed.

(** C3: start from a world made by [createWorld] and apply any sequence of
    ["add"] and ["remove"] changes: in the world that results no two entities
    have the same id. *)
Theorem alterReality_unique_ids (h : heap) (dims : Vec3) (oc pm : string)
    (ds : list string) (changes : list Change) :
  Forall (λ c, type c = "add" ∨ type c = "remove") changes →
  NoDup (world_ids (alterReality h (createWorld dims oc pm ds) changes)).
Proof.
  intros Hall.
  destruct (alterReality_add_remove_unique h (createWorld dims oc pm ds) changes Hall)
    as (w' & -> & Hnd); [apply NoDup_nil_2 | done].
Qed.

Lemma alterReality_unique_ids_witness :
  NoDup (world_ids (alterReality example_store playing_world
                      [changeAddDev; changeAddDev; changeRemoveDev;
                       changeAddPlayer; changeAddDev; changeAddPlayer])).
Proof.
  apply (alterReality_unique_ids example_store unit_box "default" "default" []).
  apply (bool_decide_unpack _). vm_compute. exact I.
Defined.

(** C4 (the code departs from the claim): the entity at location 10 of
    [loop_store] has the non-empty id ["loop"], which no entity of the world
    has, and reaches itself through its property [self].  Serialising the
    change record throws before the [switch] is reached: the call throws
    and leaves the world without the entity, and a change that follows in
    the batch is not applied. *)
Theorem add_self_reaching_entity_throws :
  truthy (get_prop loop_store (VRef 10) "id") = true ∧
  (get_prop loop_store (VRef 10) "id" ∉ ids loop_store (objects playing_world)) ∧
  get_prop loop_store (VRef 10) "self" = VRef 10 ∧
  stringify_throws loop_store (change_add (VRef 10)) = true ∧
  alterReality_throws loop_store playing_world [change_add (VRef 10)] = true ∧
  alterReality loop_store playing_world [change_add (VRef 10)]
    = (loop_store, playing_world) ∧
  objects (alterReality loop_store playing_world [change_add (VRef 10)]).2 = [] ∧
  objects (alterReality loop_store playing_world
             [change_add (VRef 10); changeAddDev]).2 = [] ∧
  objects (alterReality loop_store playing_world [changeAddDev]).2 = [VRef 1].
Proof.
  split; [vm_compute; reflexivity |].
  split; [apply (bool_decide_eq_false_1 _); vm_compute; reflexivity |].
  by_computation.
Qed.

(** X24: what does hold of ["add"].  A change whose entity carries the id of
    an entity already in the world changes neither the world nor the store
    (the entity that is there keeps every property and no second one is
    inserted); a change on which the call does not throw and whose entity
    has a non-empty id that no entity of the world has puts that entity at
    the end of the entities of the world, leaves every other field of the
    world alone, and leaves the store (so the entity itself) as it was. *)
Theorem add_existing_or_fresh (h : heap) (w : World) (c : Change) :
  type c = "add" →
  (get_prop h (object c) "id" ∈ ids h (objects w) →
     alterReality h w [c] = (h, w)) ∧
  (alterReality_throws h w [c] = false →
   truthy (get_prop h (object c) "id") = true →
   get_prop h (object c) "id" ∉ ids h (objects w) →
     (alterReality h w [c]).1 = h ∧
     objects (alterReality h w [c]).2 = objects w ++ [object c] ∧
     blinkSpots (alterReality h w [c]).2 = blinkSpots w ∧
     timeState (alterReality h w [c]).2 = timeState w ∧
     timeSpeedMultiplier (alterReality h w [c]).2 = timeSpeedMultiplier w ∧
     dimensions (alterReality h w [c]).2 = dimensions w ∧
     ocularComposition (alterReality h w [c]).2 = ocularComposition w ∧
     processingModel (alterReality h w [c]).2 = processingModel w ∧
     dataSources (alterReality h w [c]).2 = dataSources w ∧
     zeroPoint (alterReality h w [c]).2 = zeroPoint w).
Proof.
  intros Hty. rewrite alterReality_one, alterReality_throws_one.
  rewrite apply_switch_add by done. split.
  - intros Hin. rewrite (bool_decide_eq_false_2 (_ ∉ _)) by tauto.
    rewrite andb_false_r. by destruct (change_throws (h, w) c).
  - intros [-> _]%orb_false_elim -> Hnin. by rewrite bool_decide_eq_true_2.
Qed.

Lemma add_existing_or_fresh_witness :
  alterReality example_store developerWorld [changeAddDev]
    = (example_store, developerWorld) ∧
  (alterReality example_store developerWorld [changeAddPlayer]).1 = example_store ∧
  objects (alterReality example_store developerWorld [changeAddPlayer]).2
    = [VRef 1; VRef 3].
Proof.
  split.
  - apply (proj1 (add_existing_or_fresh example_store developerWorld
                    changeAddDev eq_refl)).
    apply (bool_decide_unpack _). vm_compute. exact I.
  - destruct (proj2 (add_existing_or_fresh example_store developerWorld
                       changeAddPlayer eq_refl)) as (Hstore & Hobjs & _).
    + vm_compute. reflexivity.
    + vm_compute. reflexivity.
    + apply (bool_decide_eq_false_1 _). vm_compute. reflexivity.
    + split; [exact Hstore |]. rewrite Hobjs. reflexivity.
Defined.



(** ** Modify *)

Lemma js_find_ref_holds (p : value → bool) (objs : list value) (l : loc) :
  js_find p objs = VRef l → p (VRef l) = true ∧ VRef l ∈ objs.
Proof.
  unfold js_find. destruct (List.find p objs) as [o |] eqn:Hf; [| done].
  cbn. intros ->. apply find_some in Hf as [Hin Hp].
  split; [done | by apply list_elem_of_In].
Qed.




Lemma cell_of_insert (h : heap) (l : loc) (c : cell) : cell_of (<[l := c]> h) l = c.
Proof. unfold cell_of. by rewrite lookup_insert_eq. Qed.

Lemma cell_of_insert_ne (h : heap) (l l' : loc) (c : cell) :
  l ≠ l' → cell_of (<[l := c]> h) l' = cell_of h l'.
Proof. intros Hne. unfold cell_of. by rewrite lookup_insert_ne. Qed.











(** * Properties of the snapshot loader *)

(** C8: [loadWorld] returns for every input string and every host parser, it
    never throws: when [JSON.parse] decodes the string, what it decoded is
    returned; when [JSON.parse] throws, the result is the world that
    [createWorld] makes from the dimensions [{x: 10, y: 10, z: 10}], the
    labels ["default"] and no data sources, so with no entities, in state
    PLAY at speed 1. *)
Theorem loadWorld_never_throws {Json Exn : Type}
    (JSON_parse : string → completion Exn Json) (savedState : string) :
  (∃ r, loadWorld JSON_parse savedState = Return r) ∧
  (∀ v, JSON_parse savedState = Return v →
        loadWorld JSON_parse savedState = Return (Decoded v)) ∧
  (∀ e, JSON_parse savedState = Throw e →
        ∃ w, loadWorld JSON_parse savedState = Return (Fresh w) ∧
             w = createWorld {| x := Qc_of_Z 10; y := Qc_of_Z 10; z := Qc_of_Z 10 |}
                             "default" "default" [] ∧
             dimensions w = {| x := Qc_of_Z 10; y := Qc_of_Z 10; z := Qc_of_Z 10 |} ∧
             ocularComposition w = "default" ∧ processingModel w = "default" ∧
             dataSources w = [] ∧ objects w = [] ∧ blinkSpots w = None ∧
             timeState w = "PLAY" ∧ timeSpeedMultiplier w = 1).
Proof.
  unfold loadWorld, try_catch.
  destruct (JSON_parse savedState) as [v | e]; split_and!.
  - by eexists.
  - by intros ? [= ->].
  - done.
  - by eexists.
  - done.
  - intros _ _. eexists. by split_and!.
Qed.

Lemma loadWorld_never_throws_witness :
  ∃ w, loadWorld picky_parse "not valid data" = Return (Fresh w) ∧
       objects w = [] ∧ timeState w = "PLAY" ∧ timeSpeedMultiplier w = 1.
Proof.
  destruct (loadWorld_never_throws picky_parse "not valid data") as (_ & _ & Hthrow).
  destruct (Hthrow () eq_refl) as (w & Hw & _ & _ & _ & _ & _ & Hobjs & _ & Hst & Hsp).
  exists w. by split_and!.
Defined.

(** * Properties of the quantum core *)

Lemma cell_eta (c : cell) : Cell (props c) (elems c) = c.
Proof. by destruct c. Qed.

Lemma cell_of_set_prop (h : heap) (l : loc) (k : string) (v : value) :
  cell_of (set_prop h l k v) l
    = Cell (<[k := v]> (props (cell_of h l))) (elems (cell_of h l)).
Proof. unfold set_prop. by rewrite cell_of_insert. Qed.

Lemma cell_of_set_prop_ne (h : heap) (l l' : loc) (k : string) (v : value) :
  l ≠ l' → cell_of (set_prop h l k v) l' = cell_of h l'.
Proof. intros Hne. unfold set_prop. by rewrite cell_of_insert_ne. Qed.

Lemma elems_set_prop (h : heap) (l l' : loc) (k : string) (v : value) :
  elems (cell_of (set_prop h l k v) l') = elems (cell_of h l').
Proof.
  destruct (decide (l = l')) as [<- | Hne].
  - by rewrite cell_of_set_prop.
  - by rewrite cell_of_set_prop_ne.
Qed.

Lemma get_prop_set_prop (h : heap) (l : loc) (k : string) (v : value) :
  get_prop (set_prop h l k v) (VRef l) k = v.
Proof. cbn [get_prop]. rewrite cell_of_set_prop. cbn. by rewrite lookup_insert_eq. Qed.

Lemma get_prop_set_prop_ne (h : heap) (l : loc) (k k' : string) (v o : value) :
  k ≠ k' → get_prop (set_prop h l k v) o k' = get_prop h o k'.
Proof.
  intros Hk. destruct o as [| | | | | l']; try done. cbn [get_prop].
  destruct (decide (l = l')) as [<- | Hne].
  - rewrite cell_of_set_prop. cbn. by rewrite lookup_insert_ne.
  - by rewrite cell_of_set_prop_ne.
Qed.

(** ** createEntanglement *)

Lemma entangled_cell_idemp (s : string) (c : cell) :
  entangled_cell s (entangled_cell s c) = entangled_cell s c.
Proof.
  unfold entangled_cell. cbn [props elems]. f_equal.
  apply map_eq. intros k. rewrite !lookup_insert. by repeat case_decide.
Qed.

Lemma entangled_cell_flag (s : string) (c : cell) :
  props (entangled_cell s c) !! "isEntangled" = Some (VBool true) ∧
  props (entangled_cell s c) !! "entangledWith" = Some (VStr s).
Proof.
  unfold entangled_cell. cbn [props]. split.
  - rewrite lookup_insert_ne by done. apply lookup_insert_eq.
  - apply lookup_insert_eq.
Qed.

Lemma entangled_cell_other (s : string) (c : cell) (k : string) :
  k ≠ "isEntangled" → k ≠ "entangledWith" →
  props (entangled_cell s c) !! k = props c !! k.
Proof.
  intros Hk1 Hk2. unfold entangled_cell. cbn [props].
  by rewrite !lookup_insert_ne.
Qed.

(** One turn of the loop of [createEntanglement]. *)
Lemma entangle_step (s : string) (h : heap) (obj : loc) :
  set_prop (set_prop h obj "isEntangled" (VBool true)) obj "entangledWith" (VStr s)
    = <[obj := entangled_cell s (cell_of h obj)]> h.
Proof.
  unfold set_prop at 1. rewrite cell_of_set_prop. cbn [props elems].
  unfold set_prop. by rewrite insert_insert_eq.
Qed.

(** The whole loop: every participant ends with the tagged cell, every other
    location keeps what it had. *)
Lemma entangle_loop_lookup (s : string) (objs : list loc) (h : heap) (l : loc) :
  foldl (λ h obj,
           let h := set_prop h obj "isEntangled" (VBool true) in
           set_prop h obj "entangledWith" (VStr s)) h objs !! l
    = if decide (l ∈ objs) then Some (entangled_cell s (cell_of h l)) else h !! l.
Proof.
  revert h. induction objs as [| o objs IH]; intros h; cbn [foldl].
  - rewrite decide_False; [done | apply not_elem_of_nil].
  - cbv zeta. rewrite entangle_step, IH.
    destruct (decide (l = o)) as [-> | Hne].
    + rewrite (decide_True (P := o ∈ o :: objs)) by apply list_elem_of_here.
      rewrite cell_of_insert, entangled_cell_idemp, lookup_insert_eq.
      by case_decide.
    + rewrite cell_of_insert_ne, lookup_insert_ne by done.
      destruct (decide (l ∈ objs)) as [Hin | Hnin].
      * by rewrite decide_True by by right.
      * rewrite decide_False; [done |]. by intros [? | ?]%elem_of_cons.
Qed.

(** *** Conversions to strings *)

Lemma cell_of_delete (h : heap) (l l' : loc) :
  cell_of (delete l h) l' = if decide (l = l') then empty_cell else cell_of h l'.
Proof.
  unfold cell_of. case_decide as Hl.
  - subst. by rewrite lookup_delete_eq.
  - by rewrite lookup_delete_ne.
Qed.

(** The walk through nested arrays needs no more fuel than the store has
    objects. *)
Lemma to_string_throws_fuel (n m : nat) (h : heap) (v : value) :
  (size h ≤ n)%nat → (size h ≤ m)%nat →
  to_string_throws_from n h v = to_string_throws_from m h v.
Proof.
  revert m h v. induction n as [| n IH]; intros m h v Hn Hm.
  - assert (h = ∅) as -> by (apply map_size_empty_iff; lia).
    destruct v, m; try done; cbn; unfold cell_of; by rewrite lookup_empty.
  - destruct m as [| m].
    + assert (h = ∅) as -> by (apply map_size_empty_iff; lia).
      destruct v; try done; cbn; unfold cell_of; by rewrite lookup_empty.
    + destruct v as [| | | | | l]; try done. cbn [to_string_throws_from]. f_equal.
      destruct (elems (cell_of h l)) as [es |] eqn:Hes; [| done]. f_equal.
      apply existsb_ext_all. intros v.
      assert (is_Some (h !! l)) as Hl.
      { unfold cell_of in Hes. destruct (h !! l); [by eexists | done]. }
      pose proof (map_size_delete_Some l h Hl) as Hsize.
      assert (size h ≠ 0)%nat.
      { intros Hz. apply map_size_empty_iff in Hz. destruct Hl as [c Hl].
        by rewrite Hz, lookup_empty in Hl. }
      apply IH; lia.
Qed.

(** Whether a conversion throws depends on the elements of arrays and on
    properties other than the two tags of the core. *)
Lemma to_string_throws_from_tags (fuel : nat) (h h' : heap) (v : value) :
  (∀ l, elems (cell_of h' l) = elems (cell_of h l)) →
  (∀ l k, k ≠ "isEntangled" → k ≠ "entangledWith" →
          props (cell_of h' l) !! k = props (cell_of h l) !! k) →
  to_string_throws_from fuel h' v = to_string_throws_from fuel h v.
Proof.
  revert h h' v. induction fuel as [| fuel IH]; intros h h' v Helems Hprops;
    destruct v as [| | | | | l]; try done; cbn [to_string_throws_from];
    rewrite !Hprops, Helems by done; [done |].
  destruct (elems (cell_of h l)) as [es |]; [| done]. do 2 f_equal.
  apply existsb_ext_all. intros v. apply IH.
  - intros l'. rewrite !cell_of_delete. by case_decide.
  - intros l' k Hk1 Hk2. rewrite !cell_of_delete. case_decide; [done |].
    by apply Hprops.
Qed.

Lemma to_string_throws_tags (h h' : heap) (v : value) :
  (∀ l, elems (cell_of h' l) = elems (cell_of h l)) →
  (∀ l k, k ≠ "isEntangled" → k ≠ "entangledWith" →
          props (cell_of h' l) !! k = props (cell_of h l) !! k) →
  to_string_throws h' v = to_string_throws h v.
Proof.
  intros Helems Hprops. unfold to_string_throws.
  rewrite (to_string_throws_fuel (size h') (Nat.max (size h) (size h')) h') by lia.
  rewrite (to_string_throws_fuel (size h) (Nat.max (size h) (size h')) h) by lia.
  by apply to_string_throws_from_tags.
Qed.

(** An object with an own property [toString] does not convert, an array of
    strings does, and an array converts when its only element is itself. *)
Example conversion_run :
  to_string_throws unconvertible_store (VRef 8) = true ∧
  to_string_throws unconvertible_store (VRef 9) = true ∧
  to_string_throws unconvertible_store (VRef 4) = false ∧
  to_string_throws unconvertible_store (VRef 10) = false ∧
  to_string_throws unconvertible_store (VRef 2) = false ∧
  to_string_throws unconvertible_store (VStr "A") = false ∧
  to_string_throws unconvertible_store VUndefined = false.
Proof. by_computation. Qed.

Section Entanglement.
Context `{!Runtime}.

(** The string that [createEntanglement] stores: the ids of all participants
    in order, each as [join] renders it, joined with a comma and a blank. *)
#[local] Abbreviation joined_ids h objects :=
  (String.concat ", " ((λ o, join_elem h (get_prop h (VRef o) "id")) <$> objects)).

Lemma createEntanglement_few (h : heap) (objects : list loc) :
  (length objects < 2)%nat → createEntanglement h objects = h.
Proof. intros Hlen. unfold createEntanglement. by rewrite bool_decide_eq_true_2. Qed.

Lemma createEntanglement_thrown (h : heap) (objects : list loc) :
  createEntanglement_throws h objects = true → createEntanglement h objects = h.
Proof.
  unfold createEntanglement_throws, createEntanglement.
  case_bool_decide; [done |]. cbn [negb andb]. by intros ->.
Qed.

(** A call either leaves the store alone or has two participants or more,
    all with ids that convert. *)
Lemma createEntanglement_cases (h : heap) (objects : list loc) :
  createEntanglement h objects = h
  ∨ ((2 ≤ length objects)%nat ∧ createEntanglement_throws h objects = false).
Proof.
  destruct (decide (length objects < 2)%nat) as [Hlen | Hlen];
    [left; by apply createEntanglement_few |].
  destruct (createEntanglement_throws h objects) eqn:Hthrow;
    [left; by apply createEntanglement_thrown | right; split; [lia | done]].
Qed.

Lemma createEntanglement_lookup (h : heap) (objects : list loc) (l : loc) :
  (2 ≤ length objects)%nat → createEntanglement_throws h objects = false →
  createEntanglement h objects !! l
    = if decide (l ∈ objects)
      then Some (entangled_cell (joined_ids h objects) (cell_of h l))
      else h !! l.
Proof.
  intros Hlen. unfold createEntanglement_throws, createEntanglement.
  rewrite bool_decide_eq_false_2 by lia. cbn [negb andb]. intros ->.
  cbv zeta. apply entangle_loop_lookup.
Qed.

Lemma createEntanglement_cell (h : heap) (objects : list loc) (l : loc) :
  (2 ≤ length objects)%nat → createEntanglement_throws h objects = false →
  cell_of (createEntanglement h objects) l
    = if decide (l ∈ objects)
      then entangled_cell (joined_ids h objects) (cell_of h l)
      else cell_of h l.
Proof.
  intros Hlen Hthrow. unfold cell_of at 1. rewrite createEntanglement_lookup by done.
  by case_decide.
Qed.

(** Entangling leaves the elements of every array as they were. *)
Lemma createEntanglement_elems (h : heap) (objects : list loc) (l : loc) :
  elems (cell_of (createEntanglement h objects) l) = elems (cell_of h l).
Proof.
  destruct (createEntanglement_cases h objects) as [-> | [Hlen Hthrow]]; [done |].
  rewrite createEntanglement_cell by done. by case_decide.
Qed.

Lemma createEntanglement_props (h : heap) (objects : list loc) (l : loc) (k : string) :
  k ≠ "isEntangled" → k ≠ "entangledWith" →
  props (cell_of (createEntanglement h objects) l) !! k = props (cell_of h l) !! k.
Proof.
  intros Hk1 Hk2.
  destruct (createEntanglement_cases h objects) as [-> | [Hlen Hthrow]]; [done |].
  rewrite createEntanglement_cell by done. case_decide; [| done].
  by rewrite entangled_cell_other.
Qed.

(** Entangling writes two keys only: every other property of every object,
    the ids among them, reads as before. *)
Lemma createEntanglement_other_keys (h : heap) (objects : list loc) (o : value)
    (k : string) :
  k ≠ "isEntangled" → k ≠ "entangledWith" →
  get_prop (createEntanglement h objects) o k = get_prop h o k.
Proof.
  intros Hk1 Hk2. destruct o as [| | | | | l]; try done. cbn [get_prop].
  by rewrite createEntanglement_props.
Qed.


Lemma to_string_throws_createEntanglement (h : heap) (objects : list loc) (v : value) :
  to_string_throws (createEntanglement h objects) v = to_string_throws h v.
Proof.
  apply to_string_throws_tags.
  - apply createEntanglement_elems.
  - intros l' k. apply createEntanglement_props.
Qed.



(** C9, as the claim states it, fails: the id of [obj1] in
    [unconvertible_store] is an object with an own property [toString] that
    is no function.  [join] throws on it before anything is written: with
    the two participants [obj1] and [obj2] the call throws and neither gets
    a tag. *)
Lemma createEntanglement_unconvertible_id :
  get_prop unconvertible_store (VRef 1) "id" = VRef 8 ∧
  props (cell_of unconvertible_store 8) !! "toString" = Some (VNum (Qc_of_Z 5)) ∧
  createEntanglement_throws unconvertible_store [1; 2]%positive = true ∧
  createEntanglement unconvertible_store [1; 2]%positive = unconvertible_store ∧
  get_prop (createEntanglement unconvertible_store [1; 2]%positive) (VRef 1) "isEntangled"
    = VUndefined ∧
  get_prop (createEntanglement unconvertible_store [1; 2]%positive) (VRef 2) "isEntangled"
    = VUndefined.
Proof. by_computation. Qed.


End Entanglement.


(** An id that is an array is rendered through its own [join]: with the id
    [["x", "y"]] on the first participant the string stored is
    ["x,y, B"]. *)
Example array_id_run :
  let h' := createEntanglement (H := integer_runtime) array_id_store [1; 2]%positive in
  get_prop array_id_store (VRef 1) "id" = VRef 7 ∧
  elems (cell_of array_id_store 7) = Some [VStr "x"; VStr "y"] ∧
  createEntanglement_throws array_id_store [1; 2]%positive = false ∧
  get_prop h' (VRef 1) "entangledWith" = VStr "x,y, B" ∧
  get_prop h' (VRef 2) "entangledWith" = VStr "x,y, B" ∧
  get_prop h' (VRef 1) "id" = VRef 7.
Proof. by_computation. Qed.

(** ** applySuperposition and changeCurrentState *)

Section Superposition.
Context `{!Runtime}.

Lemma js_length_array (h : heap) (a : loc) (es : list value) :
  elems (cell_of h a) = Some es →
  js_length h (VRef a) = VNum (Qc_of_Z (Z.of_nat (length es))).
Proof. intros Hes. cbn [js_length]. by rewrite Hes. Qed.

(** The guard of [changeCurrentState] keeps the index of a state slot in
    bounds: a call either stores an index the guard has checked against
    [states.length], or changes nothing. *)
Lemma changeCurrentState_in_bounds (h : heap) (object : loc) (newStateIndex : Qc) :
  state_slot_in_bounds h object = true →
  state_slot_in_bounds (changeCurrentState h object newStateIndex) object = true.
Proof.
  intros Hinv. unfold changeCurrentState. cbv zeta.
  destruct (truthy _ && _ && _) eqn:Hguard; [| done].
  apply andb_true_iff in Hguard as [[_ Hlo]%andb_true_iff Hhi].
  unfold state_slot_in_bounds.
  rewrite !get_prop_set_prop_ne by done.
  destruct (get_prop h (VRef object) "states") as [| | | | | a] eqn:Hst; try done.
  rewrite !elems_set_prop.
  destruct (elems (cell_of h a)) as [es |] eqn:Hes; [| done].
  rewrite get_prop_set_prop.
  rewrite Hlo. cbn [andb].
  unfold number_lt in Hhi. by rewrite (js_length_array h a es Hes) in Hhi.
Qed.

(** [applySuperposition] stores the index it is given: the slot is in bounds
    afterwards when the caller's index is within the array. *)
Lemma applySuperposition_in_bounds (h : heap) (object : loc) (states : value)
    (initialStateIndex : option Qc) :
  state_slot_in_bounds h object = true →
  initial_index_in_range h (SetStates states initialStateIndex) →
  state_slot_in_bounds
    (applySuperposition h object states initialStateIndex) object = true.
Proof.
  intros Hinv Hrange. unfold applySuperposition. cbv zeta.
  destruct (negb _ || _) eqn:Hguard; [done |].
  unfold state_slot_in_bounds.
  rewrite !get_prop_set_prop_ne by done. rewrite get_prop_set_prop.
  destruct states as [| | | | | a]; try done.
  rewrite !elems_set_prop.
  destruct (elems (cell_of h a)) as [es |] eqn:Hes; [| done].
  destruct (Hrange a es eq_refl Hes) as [Hlo Hhi].
  rewrite get_prop_set_prop_ne by done. rewrite get_prop_set_prop.
  by rewrite !bool_decide_eq_true_2.
Qed.

(** Neither call touches the elements of any array. *)
Lemma run_slot_call_elems (object : loc) (h : heap) (c : slot_call) (l : loc) :
  elems (cell_of (run_slot_call object h c) l) = elems (cell_of h l).
Proof.
  destruct c as [states i | n]; cbn [run_slot_call].
  - unfold applySuperposition. cbv zeta.
    destruct (negb _ || _); [done |]. by rewrite !elems_set_prop.
  - unfold changeCurrentState. cbv zeta.
    destruct (truthy _ && _ && _); [| done]. by rewrite !elems_set_prop.
Qed.

(** X23: what does hold of the slot: through any sequence of calls whose
    [SetStates] indices lie within their arrays, an index in bounds stays in
    bounds. *)
Lemma run_slot_calls_in_bounds (object : loc) (calls : list slot_call) (h : heap) :
  state_slot_in_bounds h object = true →
  Forall (initial_index_in_range h) calls →
  state_slot_in_bounds (foldl (run_slot_call object) h calls) object = true.
Proof.
  intros Hinv Hall. revert h Hinv Hall.
  induction calls as [| c calls IH]; intros h Hinv Hall; cbn [foldl]; [done |].
  apply Forall_cons in Hall as [Hc Hall]. apply IH.
  - destruct c as [states i | n]; cbn [run_slot_call].
    + by apply applySuperposition_in_bounds.
    + by apply changeCurrentState_in_bounds.
  - eapply Forall_impl; [exact Hall |].
    intros [states i | n] Hrange; cbn [initial_index_in_range] in *; [| done].
    intros a es -> Hes. rewrite run_slot_call_elems in Hes. by eapply Hrange.
Qed.

(** C2 (the code departs from the claim): [applySuperposition] on [myObject]
    with the three states of the example run and the initial index 5 stores
    the index 5 beside an array of length 3, with [currentState] undefined:
    the slot is out of bounds after a single call. *)
Theorem applySuperposition_index_unchecked :
  let h' := foldl (run_slot_call 3) quantum_store
                  [SetStates (VRef 4) (Some (Qc_of_Z 5))] in
  state_slot_in_bounds quantum_store 3 = true ∧
  get_prop h' (VRef 3) "states" = VRef 4 ∧
  js_length h' (VRef 4) = VNum (Qc_of_Z 3) ∧
  get_prop h' (VRef 3) "currentStateIndex" = VNum (Qc_of_Z 5) ∧
  get_prop h' (VRef 3) "currentState" = VUndefined ∧
  state_slot_in_bounds h' 3 = false ∧
  state_slot_in_bounds (changeCurrentState h' 3 (Qc_of_Z 99)) 3 = false.
Proof. by_computation. Qed.

End Superposition.

(** The example run of [QuantumCore.js] on [myObject]: superposition over
    three states starting at index 1, then a change to index 2. *)
Example my_object_run :
  let h1 := applySuperposition (H := integer_runtime) quantum_store 3 (VRef 4)
              (Some 1) in
  let h2 := changeCurrentState (H := integer_runtime) h1 3 2 in
  get_prop h1 (VRef 3) "currentState" = VStr "green" ∧
  get_prop h2 (VRef 3) "currentStateIndex" = VNum 2 ∧
  get_prop h2 (VRef 3) "currentState" = VStr "blue" ∧
  state_slot_in_bounds h2 3 = true ∧
  changeCurrentState (H := integer_runtime) h2 3 (Qc_of_Z 99) = h2.
Proof. by_computation. Qed.

(** * Further properties of the change protocol *)

Lemma apply_switch_modify (h : heap) (w : World) (c : Change) :
  type c = "modify" →
  apply_switch (h, w) c =
    if truthy (targetId c) && truthy (properties c)
       && bool_decide (targetId c ∈ ids h (objects w))
    then (object_assign h
            (js_find (λ obj, strict_eq (get_prop h obj "id") (targetId c)) (objects w))
            (properties c), w)
    else (h, w).
Proof.
  intros Hty. unfold apply_switch. rewrite Hty.
  rewrite (bool_decide_eq_false_2 ("modify" = "add")) by done.
  rewrite (bool_decide_eq_false_2 ("modify" = "remove")) by done.
  rewrite (bool_decide_eq_true_2 ("modify" = "modify")) by done.
  destruct (truthy (targetId c)) eqn:Htid; cbn [negb orb andb]; [| done].
  destruct (truthy (properties c)) eqn:Hprops; cbn [negb orb andb]; [| done].
  case_bool_decide as Hin.
  - destruct (js_find_id_Some h _ _ Htid Hin) as (l & -> & _). done.
  - by rewrite js_find_id_None.
Qed.

Lemma apply_switch_blink (h : heap) (w : World) (c : Change) :
  type c = "createBlinkSpot" →
  apply_switch (h, w) c =
    if truthy (coordinates c)
    then (h, set_blinkSpots
               (Some (default [] (blinkSpots w)
                      ++ [{| spot_id := "blinkSpot-"
                                        +:+ pretty (length (default [] (blinkSpots w)));
                             spot_coordinates := coordinates c;
                             spot_time := timeState w |}])) w)
    else (h, w).
Proof.
  intros Hty. unfold apply_switch. rewrite Hty.
  rewrite (bool_decide_eq_false_2 ("createBlinkSpot" = "add")) by done.
  rewrite (bool_decide_eq_false_2 ("createBlinkSpot" = "remove")) by done.
  rewrite (bool_decide_eq_false_2 ("createBlinkSpot" = "modify")) by done.
  rewrite (bool_decide_eq_true_2 ("createBlinkSpot" = "createBlinkSpot")) by done.
  by destruct (truthy (coordinates c)).
Qed.

Lemma apply_switch_unknown (h : heap) (w : World) (c : Change) :
  type c ∉ ["add"; "remove"; "modify"; "createBlinkSpot"] →
  apply_switch (h, w) c = (h, w).
Proof.
  intros Hty. unfold apply_switch.
  rewrite !bool_decide_eq_false_2; [done | | | |];
    intros Heq; apply Hty; rewrite Heq; by apply (bool_decide_unpack _).
Qed.

(** The four shapes a step of [alterReality] can take. *)
Lemma apply_switch_cases (h : heap) (w : World) (c : Change) :
  apply_switch (h, w) c = (h, w) ∨
  (∃ objs, apply_switch (h, w) c = (h, set_objects objs w)) ∨
  (∃ h', type c = "modify" ∧ apply_switch (h, w) c = (h', w)) ∨
  (∃ spot, type c = "createBlinkSpot" ∧
           apply_switch (h, w) c
           = (h, set_blinkSpots (Some (default [] (blinkSpots w) ++ [spot])) w)).
Proof.
  destruct (decide (type c = "add")) as [Hadd | Hnadd].
  { rewrite apply_switch_add by done.
    destruct (_ && _); [right; left; by eexists | by left]. }
  destruct (decide (type c = "remove")) as [Hrem | Hnrem].
  { rewrite apply_switch_remove by done.
    destruct (truthy _); [right; left; by eexists | by left]. }
  destruct (decide (type c = "modify")) as [Hmod | Hnmod].
  { rewrite apply_switch_modify by done.
    destruct (_ && _); [right; right; left; by eexists | by left]. }
  destruct (decide (type c = "createBlinkSpot")) as [Hbl | Hnbl].
  { rewrite apply_switch_blink by done.
    destruct (truthy _); [right; right; right; by eexists | by left]. }
  left. apply apply_switch_unknown.
  intros Hin. repeat (apply elem_of_cons in Hin as [? | Hin]; [done |]).
  by apply elem_of_nil in Hin.
Qed.

(** What every turn of the [switch] keeps, whatever the change. *)
Lemma alterReality_invariant_all (P : heap * World → Prop)
    (h : heap) (w : World) (changes : list Change) :
  (∀ st c, P st → P (apply_switch st c)) →
  P (h, w) → P (alterReality h w changes).
Proof.
  intros Hstep. apply (alterReality_invariant P (λ _, True)).
  - by apply Forall_true.
  - intros st c _. apply Hstep.
Qed.

(** X1: a change that fails its validation, and whose record is serialised
    without a throw, is skipped and the rest of the batch is applied as if
    it were not there: an unknown type, an ["add"] without an object or
    without an id, a ["remove"] without a target id, a ["modify"] without a
    target id or without properties, a ["createBlinkSpot"] without
    coordinates. *)
Theorem invalid_change_skipped (h : heap) (w : World) (c : Change)
    (changes : list Change) :
  stringify_throws h c = false →
  type c ∉ ["add"; "remove"; "modify"; "createBlinkSpot"]
  ∨ (type c = "add" ∧
     (truthy (object c) = false ∨ truthy (get_prop h (object c) "id") = false))
  ∨ (type c = "remove" ∧ truthy (targetId c) = false)
  ∨ (type c = "modify" ∧
     (truthy (targetId c) = false ∨ truthy (properties c) = false))
  ∨ (type c = "createBlinkSpot" ∧ truthy (coordinates c) = false) →
  alterReality h w (c :: changes) = alterReality h w changes ∧
  alterReality_throws h w (c :: changes) = alterReality_throws h w changes.
Proof.
  intros Hlog Hbad.
  assert (apply_switch (h, w) c = (h, w) ∧ lookup_throws (h, w) c = false
          ∧ message_throws (h, w) c = false) as (Hsw & Hlook & Hmsg).
  { destruct Hbad as [Hty | [[Hty Hf] | [[Hty Hf] | [[Hty Hf] | [Hty Hf]]]]].
    - split_and!; [by apply apply_switch_unknown | | by apply message_throws_unknown].
      apply lookup_throws_other; intros Heq; apply Hty; rewrite Heq;
        by apply (bool_decide_unpack _).
    - rewrite apply_switch_add, lookup_throws_add, message_throws_add by done.
      destruct (truthy (get_prop h (object c) "id")) eqn:Hid; [| done].
      destruct Hf as [Hf | Hf]; [| done].
      by rewrite (truthy_id_truthy _ _ Hid) in Hf.
    - by rewrite apply_switch_remove, lookup_throws_remove, message_throws_remove, Hf.
    - rewrite apply_switch_modify, lookup_throws_modify, message_throws_modify by done.
      destruct Hf as [-> | ->]; [done |]. by rewrite !andb_false_r.
    - rewrite apply_switch_blink, Hf by done. split_and!; [done | |].
      + by apply lookup_throws_other; rewrite Hty.
      + unfold message_throws. rewrite Hty, Hf. done. }
  rewrite alterReality_cons, alterReality_throws_cons. unfold change_throws.
  cbn [fst]. by rewrite Hlog, Hlook, Hmsg, Hsw.
Qed.

Lemma invalid_change_skipped_witness :
  alterReality example_store playing_world
    [{| type := "teleport"; object := VRef 1; targetId := VStr "devObj1";
        properties := VRef 2; coordinates := VRef 8 |};
     changeAddDev]
  = alterReality example_store playing_world [changeAddDev] ∧
  alterReality example_store playing_world [change_add (VRef 2); changeAddDev]
  = alterReality example_store playing_world [changeAddDev].
Proof.
  split.
  - apply invalid_change_skipped; [vm_compute; reflexivity |]. left.
    apply (bool_decide_eq_false_1 _). vm_compute. reflexivity.
  - apply invalid_change_skipped; [vm_compute; reflexivity |]. right. left.
    split; [reflexivity | right; vm_compute; reflexivity].
Defined.

(** X2: a ["modify"] change whose target id no entity of the world has
    changes neither the world nor the store. *)
Theorem modify_absent_noop (h : heap) (w : World) (c : Change) :
  type c = "modify" → targetId c ∉ ids h (objects w) →
  alterReality h w [c] = (h, w).
Proof.
  intros Hty Hnin. rewrite alterReality_one.
  destruct (change_throws (h, w) c); [done |].
  rewrite apply_switch_modify by done.
  rewrite (bool_decide_eq_false_2 (_ ∈ _)) by done. by rewrite andb_false_r.
Qed.

Lemma modify_absent_noop_witness :
  alterReality example_store playing_world [changeModifyDev]
  = (example_store, playing_world).
Proof.
  apply (modify_absent_noop example_store playing_world changeModifyDev eq_refl).
  apply (bool_decide_eq_false_1 _). vm_compute. reflexivity.
Defined.

(** X3: only ["modify"] changes write to the store: a batch without one
    leaves every object as it was. *)
Theorem store_untouched_without_modify (h : heap) (w : World) (changes : list Change) :
  Forall (λ c, type c ≠ "modify") changes →
  (alterReality h w changes).1 = h.
Proof.
  intros Hall.
  apply (alterReality_invariant (λ st, st.1 = h) _ h w changes Hall); [| done].
  intros [h1 w1] c Hc. cbn [fst]. intros ->.
  destruct (apply_switch_cases h w1 c)
    as [-> | [[objs ->] | [(h' & Hty & _) | (spot & _ & ->)]]]; done.
Qed.

Lemma store_untouched_without_modify_witness :
  (alterReality example_store playing_world
     [changeAddDev; changeAddPlayer; changeRemoveDev; changeBlinkSpotDev]).1
  = example_store.
Proof.
  apply store_untouched_without_modify.
  apply (bool_decide_unpack _). vm_compute. exact I.
Defined.


(** ** Blink spots *)

Lemma append_inj_l (s a b : string) : s +:+ a = s +:+ b → a = b.
Proof. induction s as [| ch s IH]; cbn; [done |]. intros [= Heq]. by apply IH. Qed.

Lemma apply_switch_spots_numbered (h : heap) (w : World) (c : Change) :
  spots_numbered w → spots_numbered (apply_switch (h, w) c).2.
Proof.
  intros Hnum.
  destruct (decide (type c = "createBlinkSpot")) as [Hbl | Hnbl].
  - rewrite apply_switch_blink by done. destruct (truthy _); [| done].
    intros i spot. cbn [snd blinkSpots set_blinkSpots default].
    intros [[_ Hi] | [-> <-]]%lookup_snoc_Some; [by apply Hnum | done].
  - by destruct (apply_switch_cases h w c)
      as [-> | [[objs ->] | [(h' & _ & ->) | (spot & Hty & _)]]].
Qed.


(** X5: in a world made by [createWorld], after any batches of changes the
    blink spot at position [i] has the id ["blinkSpot-i"], so no two blink
    spots share an id. *)
Theorem blinkSpot_ids_sequential (h : heap) (dims : Vec3) (oc pm : string)
    (ds : list string) (changes : list Change) :
  spots_numbered (alterReality h (createWorld dims oc pm ds) changes).2 ∧
  NoDup (spot_id <$>
           default [] (blinkSpots (alterReality h (createWorld dims oc pm ds) changes).2)).
Proof.
  assert (Hnum : spots_numbered (alterReality h (createWorld dims oc pm ds) changes).2).
  { apply (alterReality_invariant_all (λ st, spots_numbered st.2)).
    - intros [h1 w1] c. apply apply_switch_spots_numbered.
    - intros i spot. cbn. by rewrite lookup_nil. }
  split; [done |]. apply NoDup_alt. intros i j sid.
  rewrite !list_lookup_fmap.
  destruct (default [] _ !! i) as [si |] eqn:Hi; [| done].
  destruct (default [] _ !! j) as [sj |] eqn:Hj; [| done].
  cbn. intros [= <-] [= Heq].
  rewrite (Hnum i si Hi), (Hnum j sj Hj) in Heq.
  apply append_inj_l in Heq. by apply (inj pretty) in Heq.
Qed.


(** ** Add, remove and modify together *)

(** An entity that is an array is serialised through its elements alone, so
    its id can reach itself while the ["add"] record is still serialised:
    such an entity is added, and the ["remove"] record that carries its id
    then throws, which leaves the entity in the world. *)
Example add_then_remove_unserialisable_id :
  truthy (get_prop array_store (VRef 12) "id") = true ∧
  (get_prop array_store (VRef 12) "id" ∉ ids array_store (objects playing_world)) ∧
  stringify_throws array_store (change_add (VRef 12)) = false ∧
  stringify_throws array_store (change_remove (get_prop array_store (VRef 12) "id"))
    = true ∧
  objects (alterReality array_store playing_world
             [change_add (VRef 12);
              change_remove (get_prop array_store (VRef 12) "id")]).2 = [VRef 12].
Proof.
  split; [vm_compute; reflexivity |].
  split; [apply (bool_decide_eq_false_1 _); vm_compute; reflexivity |].
  by_computation.
Qed.

(** X7: adding an entity with a fresh, non-empty id and then removing that
    id, with a ["remove"] record that is serialised without a throw, gives
    back the world and the store that were there. *)
Theorem add_then_remove (h : heap) (w : World) (o : value) :
  truthy (get_prop h o "id") = true →
  get_prop h o "id" ∉ ids h (objects w) →
  stringify_throws h (change_remove (get_prop h o "id")) = false →
  alterReality h w [change_add o; change_remove (get_prop h o "id")] = (h, w).
Proof.
  intros Hid Hnin Hlog.
  rewrite alterReality_cons_quiet by by apply message_throws_add_fresh.
  destruct (change_throws (h, w) (change_add o)) eqn:Hthrow; [done |].
  apply orb_false_elim in Hthrow as [_ Hlook].
  rewrite lookup_throws_add in Hlook by done. cbn [object change_add] in Hlook.
  rewrite Hid, js_find_throws_absent in Hlook by done. cbn [andb] in Hlook.
  destruct (truthy_id_is_object h o Hid) as [l ->].
  rewrite apply_switch_add by done. cbn [object change_add].
  rewrite Hid, bool_decide_eq_true_2 by done. cbn [andb fst snd].
  rewrite alterReality_one. unfold change_throws. cbn [fst].
  rewrite Hlog, lookup_throws_remove by done.
  cbn [targetId change_remove objects set_objects orb].
  rewrite Hid, nullish_snoc, Hlook. cbn [andb].
  rewrite apply_switch_remove by done. cbn [targetId change_remove objects set_objects].
  rewrite Hid, filter_app, filter_ids_absent by done.
  rewrite filter_cons_False, filter_nil by (by intros ?).
  rewrite (right_id_L [] (++)). by destruct w.
Qed.

Lemma add_then_remove_witness :
  alterReality example_store developerWorld
    [changeAddPlayer; change_remove (VStr "playerObj1")]
  = (example_store, developerWorld).
Proof.
  apply (add_then_remove example_store developerWorld (VRef 3)).
  - vm_compute. reflexivity.
  - apply (bool_decide_eq_false_1 _). vm_compute. reflexivity.
  - vm_compute. reflexivity.
Defined.

(** X8: a ["remove"] change with a non-empty target id, on which the call
    does not throw, deletes every entity of that id and nothing
    else: afterwards no entity has the id, an entity is in the world exactly
    when it was there with another id, the entities that stay keep their
    order, and the store is as before. *)
Theorem remove_deletes_every_match (h : heap) (w : World) (c : Change) :
  type c = "remove" → truthy (targetId c) = true →
  alterReality_throws h w [c] = false →
  (alterReality h w [c]).1 = h ∧
  (targetId c ∉ world_ids (alterReality h w [c])) ∧
  (∀ obj, obj ∈ objects (alterReality h w [c]).2
          ↔ obj ∈ objects w ∧ get_prop h obj "id" ≠ targetId c) ∧
  objects (alterReality h w [c]).2 `sublist_of` objects w.
Proof.
  intros Hty Htid Hlog. rewrite alterReality_throws_one in Hlog.
  apply orb_false_elim in Hlog as [Hlog _].
  rewrite alterReality_one, Hlog. unfold world_ids.
  rewrite apply_switch_remove, Htid by done. cbn [fst snd objects set_objects].
  split_and!.
  - done.
  - apply ids_filter_absent.
  - intros obj. rewrite list_elem_of_filter. tauto.
  - apply sublist_filter.
Qed.

Lemma remove_deletes_every_match_witness :
  (alterReality example_store sharedWorld [changeRemoveDev]).1 = example_store ∧
  objects (alterReality example_store sharedWorld [changeRemoveDev]).2 = [VRef 3].
Proof.
  destruct (remove_deletes_every_match example_store sharedWorld changeRemoveDev
              eq_refl eq_refl) as (Hstore & _ & _ & _); [vm_compute; reflexivity |].
  split; [exact Hstore | vm_compute; reflexivity].
Defined.






(** * Further properties of the time controller *)

Lemma controlTime_cases (w : World) (state : string) (speed : option number) :
  ((state ∉ time_states) ∧ controlTime w state speed = set_timeSpeedMultiplier 1 w) ∨
  (state ∈ time_states ∧ state ≠ "FAST FORWARD" ∧ state ≠ "REWIND" ∧
   controlTime w state speed = set_timeSpeedMultiplier 1 (set_timeState state w)) ∨
  ((state = "FAST FORWARD" ∨ state = "REWIND") ∧
   number_le_0 (default (Finite 1) speed) = true ∧
   controlTime w state speed = set_timeSpeedMultiplier 1 (set_timeState "PLAY" w)) ∨
  ((state = "FAST FORWARD" ∨ state = "REWIND") ∧
   number_le_0 (default (Finite 1) speed) = false ∧
   controlTime w state speed
   = set_timeSpeedMultiplier (default (Finite 1) speed) (set_timeState state w)).
Proof.
  destruct (decide (state ∈ time_states)) as [Hin | Hnin];
    [| left; by rewrite controlTime_invalid].
  destruct (decide (state = "FAST FORWARD" ∨ state = "REWIND")) as [Hsp | Hpl].
  - rewrite (controlTime_valid_speed w state speed Hsp).
    destruct (number_le_0 (default (Finite 1) speed)) eqn:Hle;
      [by right; right; left | by right; right; right].
  - right; left. rewrite controlTime_valid_plain by tauto. split_and!; tauto.
Qed.

(** X11: [controlTime] is idempotent: a second call with the same state and
    speed changes nothing more. *)
Theorem controlTime_idempotent (w : World) (state : string) (speed : option number) :
  controlTime (controlTime w state speed) state speed = controlTime w state speed.
Proof.
  destruct (controlTime_cases w state speed)
    as [[Hnin Hrun] | [(Hin & Hff & Hrw & Hrun) | [(Hsp & Hle & Hrun) | (Hsp & Hlt & Hrun)]]];
    rewrite Hrun.
  - by rewrite controlTime_invalid.
  - by rewrite controlTime_valid_plain.
  - rewrite controlTime_valid_speed by done. by rewrite Hle.
  - rewrite controlTime_valid_speed by done. by rewrite Hlt.
Qed.

(** X12: [controlTime] writes [timeState] and [timeSpeedMultiplier] only:
    the entities, the blink spots, the dimensions, the configuration labels,
    the data sources and the zero point of the world stay as they were. *)
Theorem controlTime_keeps_frame (w : World) (state : string) (speed : option number) :
  objects (controlTime w state speed) = objects w ∧
  blinkSpots (controlTime w state speed) = blinkSpots w ∧
  dimensions (controlTime w state speed) = dimensions w ∧
  ocularComposition (controlTime w state speed) = ocularComposition w ∧
  processingModel (controlTime w state speed) = processingModel w ∧
  dataSources (controlTime w state speed) = dataSources w ∧
  zeroPoint (controlTime w state speed) = zeroPoint w.
Proof.
  by destruct (controlTime_cases w state speed)
    as [[_ ->] | [(_ & _ & _ & ->) | [(_ & _ & ->) | (_ & _ & ->)]]].
Qed.

Lemma controlTime_state_valid (w : World) (state : string) (speed : option number) :
  timeState w ∈ time_states → timeState (controlTime w state speed) ∈ time_states.
Proof.
  intros Hw.
  destruct (controlTime_cases w state speed)
    as [[_ ->] | [(Hin & _ & _ & ->) | [(_ & _ & ->) | (Hsp & _ & ->)]]]; cbn.
  - done.
  - done.
  - by apply (bool_decide_unpack _).
  - destruct Hsp as [-> | ->]; by apply (bool_decide_unpack _).
Qed.

Lemma controlTime_normal_speed (w : World) (state : string) (speed : option number) :
  timeState (controlTime w state speed) ∉ ["FAST FORWARD"; "REWIND"] →
  timeSpeedMultiplier (controlTime w state speed) = 1.
Proof.
  destruct (controlTime_cases w state speed)
    as [[_ ->] | [(_ & _ & _ & ->) | [(_ & _ & ->) | (Hsp & _ & ->)]]]; cbn;
    try done.
  intros Hnot. exfalso. apply Hnot.
  destruct Hsp as [-> | ->]; by apply (bool_decide_unpack _).
Qed.

(** X13: start from a world made by [createWorld] and make any calls of
    [controlTime], with valid or invalid labels and any speeds: the time
    state is always one of the five labels, and outside FAST FORWARD and
    REWIND the speed multiplier is 1. *)
Theorem time_control_invariant (dims : Vec3) (oc pm : string) (ds : list string)
    (calls : list (string * option number)) :
  timeState (run_time_calls (createWorld dims oc pm ds) calls) ∈ time_states ∧
  (timeState (run_time_calls (createWorld dims oc pm ds) calls)
     ∉ ["FAST FORWARD"; "REWIND"] →
   timeSpeedMultiplier (run_time_calls (createWorld dims oc pm ds) calls) = 1).
Proof.
  unfold run_time_calls.
  induction calls as [| [state speed] calls IH] using rev_ind.
  - split; [by apply (bool_decide_unpack _) | done].
  - rewrite foldl_snoc. cbn [fst snd]. split.
    + apply controlTime_state_valid, IH.
    + apply controlTime_normal_speed.
Qed.

Lemma time_control_invariant_witness :
  timeState (run_time_calls playing_world
               [("REWIND", Some (Finite 2)); ("UNKNOWN", None); ("STOP", Some (Finite (- 1)))]) = "STOP" ∧
  timeSpeedMultiplier
    (run_time_calls playing_world
       [("REWIND", Some (Finite 2)); ("UNKNOWN", None); ("STOP", Some (Finite (- 1)))]) = 1.
Proof.
  split; [vm_compute; reflexivity |].
  apply (proj2 (time_control_invariant unit_box "default" "default" []
                  [("REWIND", Some (Finite 2)); ("UNKNOWN", None); ("STOP", Some (Finite (- 1)))])).
  apply (bool_decide_eq_false_1 _). vm_compute. reflexivity.
Defined.

(** X14: for PLAY, PAUSE and STOP the speed argument is ignored: the state is
    set and the multiplier is 1, whatever speed the caller passes. *)
Theorem controlTime_plain_ignores_speed (w : World) (state : string)
    (speed speed' : option number) :
  state ∈ ["PLAY"; "PAUSE"; "STOP"] →
  controlTime w state speed = controlTime w state speed' ∧
  timeState (controlTime w state speed) = state ∧
  timeSpeedMultiplier (controlTime w state speed) = 1.
Proof.
  intros Hst.
  assert (state ∈ time_states ∧ state ≠ "FAST FORWARD" ∧ state ≠ "REWIND")
    as (Hin & Hff & Hrw).
  { repeat (apply elem_of_cons in Hst as [-> | Hst];
            [split_and!; [by apply (bool_decide_unpack _) | done | done] |]).
    by apply elem_of_nil in Hst. }
  by rewrite !controlTime_valid_plain.
Qed.

Lemma controlTime_plain_ignores_speed_witness :
  controlTime fast_world "PAUSE" (Some (Finite (- 2))) = controlTime fast_world "PAUSE" None ∧
  timeState (controlTime fast_world "PAUSE" (Some (Finite (- 2)))) = "PAUSE" ∧
  timeSpeedMultiplier (controlTime fast_world "PAUSE" (Some (Finite (- 2)))) = 1.
Proof.
  apply (controlTime_plain_ignores_speed fast_world "PAUSE" (Some (Finite (- 2))) None).
  apply (bool_decide_unpack _). vm_compute. exact I.
Defined.

(** * Further properties of the quantum core *)

Lemma get_prop_set_prop_other (h : heap) (l l' : loc) (k k' : string) (v : value) :
  l ≠ l' → get_prop (set_prop h l k v) (VRef l') k' = get_prop h (VRef l') k'.
Proof. intros Hne. cbn [get_prop]. by rewrite cell_of_set_prop_ne. Qed.

Lemma lookup_set_prop_ne (h : heap) (l l' : loc) (k : string) (v : value) :
  l ≠ l' → set_prop h l k v !! l' = h !! l'.
Proof. intros Hne. unfold set_prop. by rewrite lookup_insert_ne. Qed.

Lemma breakEntanglement_entangled (h : heap) (object : loc) :
  truthy (get_prop h (VRef object) "isEntangled") = true →
  breakEntanglement_throws h object = false →
  breakEntanglement h object
  = set_prop (set_prop h object "isEntangled" (VBool false)) object
             "entangledWith" VNull.
Proof.
  unfold breakEntanglement_throws. intros Hflag Hthrow.
  unfold breakEntanglement. by rewrite Hflag, Hthrow.
Qed.

Lemma breakEntanglement_free (h : heap) (object : loc) :
  truthy (get_prop h (VRef object) "isEntangled") = false →
  breakEntanglement h object = h.
Proof. intros Hflag. unfold breakEntanglement. by rewrite Hflag. Qed.

Lemma breakEntanglement_thrown (h : heap) (object : loc) :
  breakEntanglement_throws h object = true → breakEntanglement h object = h.
Proof.
  unfold breakEntanglement_throws. intros Hthrow. unfold breakEntanglement.
  rewrite Hthrow. by destruct (truthy _).
Qed.

(** Clearing the two tags does not change whether a value converts. *)
Lemma to_string_throws_cleared (h : heap) (object : loc) (v : value) :
  to_string_throws
    (set_prop (set_prop h object "isEntangled" (VBool false)) object
              "entangledWith" VNull) v
  = to_string_throws h v.
Proof.
  apply to_string_throws_tags.
  - intros l. by rewrite !elems_set_prop.
  - intros l k Hk1 Hk2. destruct (decide (object = l)) as [<- | Hne].
    + rewrite !cell_of_set_prop. cbn [props]. by rewrite !lookup_insert_ne.
    + by rewrite !cell_of_set_prop_ne.
Qed.

(** X16: [breakEntanglement] on an object that is not entangled changes
    nothing; on any object a second call changes nothing more; and a call
    never touches another object, nor any key of its object other than
    [isEntangled] and [entangledWith]. *)
Theorem breakEntanglement_idempotent_local (h : heap) (object : loc) :
  (truthy (get_prop h (VRef object) "isEntangled") = false →
     breakEntanglement h object = h) ∧
  breakEntanglement (breakEntanglement h object) object = breakEntanglement h object ∧
  (∀ l, l ≠ object → breakEntanglement h object !! l = h !! l) ∧
  (∀ k, k ≠ "isEntangled" → k ≠ "entangledWith" →
        get_prop (breakEntanglement h object) (VRef object) k
        = get_prop h (VRef object) k).
Proof.
  split; [apply breakEntanglement_free |].
  destruct (breakEntanglement_throws h object) eqn:Hthrow.
  { rewrite !(breakEntanglement_thrown h object Hthrow). by split_and!. }
  destruct (truthy (get_prop h (VRef object) "isEntangled")) eqn:Hflag.
  - rewrite (breakEntanglement_entangled h object Hflag Hthrow). split_and!.
    + apply breakEntanglement_free.
      by rewrite get_prop_set_prop_ne, get_prop_set_prop.
    + intros l Hne. by rewrite !lookup_set_prop_ne.
    + intros k Hk1 Hk2. by rewrite !get_prop_set_prop_ne.
  - rewrite (breakEntanglement_free h object Hflag). split_and!; [| done | done].
    by apply breakEntanglement_free.
Qed.

Lemma breakEntanglement_idempotent_local_witness :
  breakEntanglement quantum_store 3 = quantum_store.
Proof.
  apply (proj1 (breakEntanglement_idempotent_local quantum_store 3)).
  vm_compute. reflexivity.
Defined.

Section EntanglementFrame.
Context `{!Runtime}.

#[local] Abbreviation all_ids h objects :=
  (String.concat ", " ((λ o, join_elem h (get_prop h (VRef o) "id")) <$> objects)).

(** X15: after an entanglement that did not throw, breaking the
    entanglement of one participant does not throw either and clears that
    participant only: its flag is false and its partner string is null,
    while every other participant is still flagged and still carries the
    string of all ids as [join] rendered them, the id of the released object
    among them. *)
Theorem breakEntanglement_one_sided (h : heap) (objects : list loc) (o o' : loc) :
  (2 ≤ length objects)%nat → createEntanglement_throws h objects = false →
  o ∈ objects → o' ∈ objects → o ≠ o' →
  breakEntanglement_throws (createEntanglement h objects) o = false ∧
  get_prop (breakEntanglement (createEntanglement h objects) o) (VRef o) "isEntangled"
    = VBool false ∧
  get_prop (breakEntanglement (createEntanglement h objects) o) (VRef o) "entangledWith"
    = VNull ∧
  get_prop (breakEntanglement (createEntanglement h objects) o) (VRef o') "isEntangled"
    = VBool true ∧
  get_prop (breakEntanglement (createEntanglement h objects) o) (VRef o') "entangledWith"
    = VStr (all_ids h objects).
Proof.
  intros Hlen Hthrow Ho Ho' Hne.
  assert (Hflag : ∀ p, p ∈ objects →
            get_prop (createEntanglement h objects) (VRef p) "isEntangled" = VBool true ∧
            get_prop (createEntanglement h objects) (VRef p) "entangledWith"
            = VStr (all_ids h objects)).
  { intros p Hp. cbn [get_prop]. rewrite createEntanglement_cell, decide_True by done.
    destruct (entangled_cell_flag (all_ids h objects) (cell_of h p)) as [-> ->]. done. }
  assert (Hquiet : breakEntanglement_throws (createEntanglement h objects) o = false).
  { unfold breakEntanglement_throws.
    rewrite createEntanglement_other_keys, to_string_throws_createEntanglement by done.
    unfold createEntanglement_throws in Hthrow.
    rewrite bool_decide_eq_false_2 in Hthrow by lia. cbn [negb andb] in Hthrow.
    destruct (to_string_throws h (get_prop h (VRef o) "id")) eqn:Hid; [| done].
    rewrite <- Hthrow. symmetry. apply existsb_exists. exists o.
    split; [by apply list_elem_of_In | done]. }
  split; [exact Hquiet |].
  rewrite breakEntanglement_entangled by (by rewrite ?(proj1 (Hflag o Ho))).
  split_and!.
  - by rewrite get_prop_set_prop_ne, get_prop_set_prop.
  - by rewrite get_prop_set_prop.
  - rewrite !get_prop_set_prop_other by done. apply Hflag, Ho'.
  - rewrite !get_prop_set_prop_other by done. apply Hflag, Ho'.
Qed.

(** X17: [createEntanglement] writes two keys of its participants and
    nothing else: an object outside the list is untouched, every other key
    of every object reads as before, and no array changes its elements. *)
Theorem createEntanglement_frame (h : heap) (objects : list loc) :
  (∀ l, l ∉ objects → createEntanglement h objects !! l = h !! l) ∧
  (∀ o k, k ≠ "isEntangled" → k ≠ "entangledWith" →
          get_prop (createEntanglement h objects) o k = get_prop h o k) ∧
  (∀ l, elems (cell_of (createEntanglement h objects) l) = elems (cell_of h l)).
Proof.
  split_and!.
  - intros l Hl.
    destruct (createEntanglement_cases h objects) as [-> | [Hlen Hthrow]]; [done |].
    by rewrite createEntanglement_lookup, decide_False by done.
  - intros o k. apply createEntanglement_other_keys.
  - apply createEntanglement_elems.
Qed.

End EntanglementFrame.

Lemma breakEntanglement_one_sided_witness :
  get_prop (breakEntanglement
              (createEntanglement (H := integer_runtime) quantum_store [1; 2]%positive) 1)
           (VRef 1) "isEntangled" = VBool false ∧
  get_prop (breakEntanglement
              (createEntanglement (H := integer_runtime) quantum_store [1; 2]%positive) 1)
           (VRef 1) "entangledWith" = VNull ∧
  get_prop (breakEntanglement
              (createEntanglement (H := integer_runtime) quantum_store [1; 2]%positive) 1)
           (VRef 2) "isEntangled" = VBool true ∧
  get_prop (breakEntanglement
              (createEntanglement (H := integer_runtime) quantum_store [1; 2]%positive) 1)
           (VRef 2) "entangledWith" = VStr "A, B".
Proof.
  apply (breakEntanglement_one_sided (H := integer_runtime) quantum_store
           [1; 2]%positive 1%positive 2%positive).
  - cbn. lia.
  - vm_compute. reflexivity.
  - by left.
  - by right; left.
  - discriminate.
Defined.

Lemma createEntanglement_frame_witness :
  createEntanglement (H := integer_runtime) quantum_store [1; 2]%positive !! 3%positive
  = quantum_store !! 3%positive.
Proof.
  apply (proj1 (createEntanglement_frame (H := integer_runtime) quantum_store
                  [1; 2]%positive)).
  apply (bool_decide_eq_false_1 _). vm_compute. reflexivity.
Defined.

(** ** State slots *)

Lemma Qc_of_Z_lt (a b : Z) : (a < b)%Z → Qc_of_Z a < Qc_of_Z b.
Proof. intros Hab. rewrite Zlt_Qlt in Hab. exact Hab. Qed.

Lemma Qc_of_Z_le (a b : Z) : (a ≤ b)%Z → Qc_of_Z a ≤ Qc_of_Z b.
Proof. intros Hab. rewrite Zle_Qle in Hab. exact Hab. Qed.

Lemma Qc_of_Z_0 : Qc_of_Z 0 = 0.
Proof. by apply Qc_is_canon. Qed.

Lemma Qc_of_Z_2 : Qc_of_Z 2 = 2.
Proof. by apply Qc_is_canon. Qed.

Lemma array_index_of_nat (k : nat) : array_index (Qc_of_Z (Z.of_nat k)) = Some k.
Proof.
  unfold array_index. cbn.
  rewrite (bool_decide_eq_true_2 (1 = 1)%positive) by done.
  rewrite bool_decide_eq_true_2 by lia. cbn [andb]. by rewrite Nat2Z.id.
Qed.

Section StateSlots.
Context `{!Runtime}.

Lemma applySuperposition_accepted (h : heap) (object : loc) (a : loc)
    (es : list value) (initialStateIndex : option Qc) :
  elems (cell_of h a) = Some es → (2 ≤ length es)%nat →
  applySuperposition h object (VRef a) initialStateIndex
  = let i := default 0 initialStateIndex in
    let h := set_prop h object "states" (VRef a) in
    let h := set_prop h object "currentStateIndex" (VNum i) in
    set_prop h object "currentState" (js_index h (VRef a) i).
Proof.
  intros Hes Hlen. unfold applySuperposition. cbv zeta.
  cbn [isArray]. rewrite Hes, bool_decide_eq_true_2 by done. cbn [negb orb].
  unfold lt_number. rewrite (js_length_array h a es Hes). cbn [to_number].
  rewrite bool_decide_eq_false_2; [done |].
  apply Qcle_not_lt. rewrite <- Qc_of_Z_2. apply Qc_of_Z_le. lia.
Qed.

(** X18: [applySuperposition] does nothing unless [states] is an array of at
    least two elements: with anything that is not an array, with the empty
    array and with an array of one element the store stays as it was. *)
Theorem applySuperposition_rejects (h : heap) (object : loc) (states : value)
    (initialStateIndex : option Qc) :
  (∀ a es, states = VRef a → elems (cell_of h a) = Some es → (length es < 2)%nat) →
  applySuperposition h object states initialStateIndex = h.
Proof.
  intros Hshort. unfold applySuperposition. cbv zeta.
  destruct states as [| | | | | a]; try done. cbn [isArray].
  destruct (elems (cell_of h a)) as [es |] eqn:Hes; [| done].
  rewrite bool_decide_eq_true_2 by done. cbn [negb orb].
  unfold lt_number. rewrite (js_length_array h a es Hes). cbn [to_number].
  rewrite bool_decide_eq_true_2; [done |].
  rewrite <- Qc_of_Z_2. apply Qc_of_Z_lt. specialize (Hshort a es eq_refl Hes). lia.
Qed.

(** X19: [changeCurrentState] does nothing when the object has no [states],
    when the new index is negative, or when the new index is not below the
    length of the [states] array. *)
Theorem changeCurrentState_rejects (h : heap) (object : loc) (newStateIndex : Qc) :
  truthy (get_prop h (VRef object) "states") = false
  ∨ newStateIndex < 0
  ∨ (∃ a es, get_prop h (VRef object) "states" = VRef a ∧
             elems (cell_of h a) = Some es ∧
             Qc_of_Z (Z.of_nat (length es)) ≤ newStateIndex) →
  changeCurrentState h object newStateIndex = h.
Proof.
  intros Hbad. unfold changeCurrentState. cbv zeta.
  destruct Hbad as [-> | [Hneg | (a & es & Hst & Hes & Hge)]]; [done | |].
  - rewrite (bool_decide_eq_false_2 (0 ≤ _)) by by apply Qclt_not_le.
    by rewrite andb_false_r.
  - rewrite Hst. unfold number_lt. rewrite (js_length_array h a es Hes).
    cbn [to_number]. rewrite (bool_decide_eq_false_2 (_ < _)) by by apply Qcle_not_lt.
    by rewrite andb_false_r.
Qed.

Lemma changeCurrentState_accepted (h : heap) (object : loc) (a : loc)
    (es : list value) (newStateIndex : Qc) :
  get_prop h (VRef object) "states" = VRef a → elems (cell_of h a) = Some es →
  0 ≤ newStateIndex → newStateIndex < Qc_of_Z (Z.of_nat (length es)) →
  changeCurrentState h object newStateIndex
  = let h := set_prop h object "currentStateIndex" (VNum newStateIndex) in
    set_prop h object "currentState" (js_index h (VRef a) newStateIndex).
Proof.
  intros Hst Hes Hlo Hhi. unfold changeCurrentState. cbv zeta.
  rewrite Hst. cbn [truthy andb]. rewrite bool_decide_eq_true_2 by done.
  unfold number_lt. rewrite (js_length_array h a es Hes). cbn [to_number andb].
  rewrite bool_decide_eq_true_2 by done.
  by rewrite get_prop_set_prop_ne, Hst.
Qed.

Lemma js_index_array (h : heap) (a : loc) (es : list value) (i : Qc) (k : nat) :
  elems (cell_of h a) = Some es → array_index i = Some k →
  js_index h (VRef a) i = default VUndefined (es !! k).
Proof. intros Hes Hk. cbn [js_index]. by rewrite Hes, Hk. Qed.

(** One call keeps the slot consistent. *)
Lemma run_slot_call_consistent (object : loc) (h : heap) (c : slot_call) :
  state_slot_consistent h object →
  state_slot_consistent (run_slot_call object h c) object.
Proof.
  intros Hcons. destruct c as [states i0 | n]; cbn [run_slot_call].
  - unfold applySuperposition. cbv zeta.
    destruct (negb _ || _) eqn:Hguard; [done |].
    intros a es i k.
    rewrite !get_prop_set_prop_ne by done. rewrite !get_prop_set_prop.
    rewrite get_prop_set_prop_ne by done. rewrite get_prop_set_prop.
    rewrite !elems_set_prop. intros -> Hes [= <-] Hk.
    apply js_index_array; [| done]. by rewrite !elems_set_prop.
  - unfold changeCurrentState. cbv zeta.
    destruct (truthy _ && _ && _) eqn:Hguard; [| done].
    intros a es i k.
    rewrite !get_prop_set_prop_ne by done. rewrite !get_prop_set_prop.
    rewrite !elems_set_prop. intros Hst Hes [= <-] Hk. rewrite Hst.
    apply js_index_array; [| done]. by rewrite !elems_set_prop.
Qed.

(** X20: the slot stays consistent through every sequence of
    [applySuperposition] and [changeCurrentState] calls on an object, accepted
    or rejected: [currentState] is the element of [states] at
    [currentStateIndex], and [undefined] when that index lies beyond the end
    of the array. *)
Theorem run_slot_calls_consistent (object : loc) (calls : list slot_call) (h : heap) :
  state_slot_consistent h object →
  state_slot_consistent (foldl (run_slot_call object) h calls) object.
Proof.
  revert h. induction calls as [| c calls IH]; intros h Hcons; cbn [foldl]; [done |].
  by apply IH, run_slot_call_consistent.
Qed.

(** X21: [applySuperposition] with an array of at least two states, followed
    by [changeCurrentState] to a position [k] of that array, leaves the
    object with that array as [states], [k] as [currentStateIndex] and the
    array's element at [k] as [currentState], whatever the initial index
    was. *)
Theorem superposition_then_change (h : heap) (object a : loc) (es : list value)
    (initialStateIndex : option Qc) (k : nat) (e : value) :
  elems (cell_of h a) = Some es → (2 ≤ length es)%nat → es !! k = Some e →
  let h' := changeCurrentState
              (applySuperposition h object (VRef a) initialStateIndex) object
              (Qc_of_Z (Z.of_nat k)) in
  get_prop h' (VRef object) "states" = VRef a ∧
  get_prop h' (VRef object) "currentStateIndex" = VNum (Qc_of_Z (Z.of_nat k)) ∧
  get_prop h' (VRef object) "currentState" = e.
Proof.
  intros Hes Hlen Hk. cbv zeta.
  rewrite (applySuperposition_accepted h object a es) by done. cbv zeta.
  rewrite (changeCurrentState_accepted _ object a es).
  - cbv zeta. split_and!.
    + rewrite !get_prop_set_prop_ne by done. apply get_prop_set_prop.
    + rewrite get_prop_set_prop_ne by done. apply get_prop_set_prop.
    + rewrite get_prop_set_prop.
      rewrite (js_index_array _ a es _ k); [by rewrite Hk | | apply array_index_of_nat].
      by rewrite !elems_set_prop.
  - rewrite !get_prop_set_prop_ne by done. apply get_prop_set_prop.
  - by rewrite !elems_set_prop.
  - rewrite <- Qc_of_Z_0. apply Qc_of_Z_le. lia.
  - apply Qc_of_Z_lt. apply lookup_lt_Some in Hk. lia.
Qed.

End StateSlots.

Lemma applySuperposition_rejects_witness :
  applySuperposition (H := integer_runtime) quantum_store 3 (VStr "red") None
  = quantum_store.
Proof.
  apply (applySuperposition_rejects (H := integer_runtime)). intros a es [=].
Defined.

Lemma changeCurrentState_rejects_witness :
  let h := applySuperposition (H := integer_runtime) quantum_store 3 (VRef 4) None in
  changeCurrentState (H := integer_runtime) h 3 (Qc_of_Z 99) = h ∧
  changeCurrentState (H := integer_runtime) h 3 (- 1) = h ∧
  changeCurrentState (H := integer_runtime) quantum_store 3 1 = quantum_store.
Proof.
  cbv zeta. split_and!.
  - apply (changeCurrentState_rejects (H := integer_runtime)). right. right.
    exists 4%positive, [VStr "red"; VStr "green"; VStr "blue"].
    split_and!; [vm_compute; reflexivity | vm_compute; reflexivity |].
    vm_compute. discriminate.
  - apply (changeCurrentState_rejects (H := integer_runtime)). right. left.
    vm_compute. reflexivity.
  - apply (changeCurrentState_rejects (H := integer_runtime)). left.
    vm_compute. reflexivity.
Defined.

Lemma run_slot_calls_consistent_witness :
  get_prop
    (foldl (run_slot_call (H := integer_runtime) 3) quantum_store
       [SetStates (VRef 4) (Some 1); SetCurrentIndex 2; SetCurrentIndex (Qc_of_Z 99)])
    (VRef 3) "currentState"
  = VStr "blue".
Proof.
  apply (run_slot_calls_consistent (H := integer_runtime) 3
           [SetStates (VRef 4) (Some 1); SetCurrentIndex 2; SetCurrentIndex (Qc_of_Z 99)]
           quantum_store)
    with (a := 4%positive) (es := [VStr "red"; VStr "green"; VStr "blue"])
         (i := 2) (k := 2%nat).
  - intros a es i k. vm_compute. discriminate.
  - vm_compute. reflexivity.
  - vm_compute. reflexivity.
  - vm_compute. reflexivity.
  - vm_compute. reflexivity.
Defined.

Lemma superposition_then_change_witness :
  let h' := changeCurrentState (H := integer_runtime)
              (applySuperposition (H := integer_runtime) quantum_store 3 (VRef 4)
                 (Some (Qc_of_Z 5)))
              3 (Qc_of_Z (Z.of_nat 2)) in
  get_prop h' (VRef 3) "states" = VRef 4 ∧
  get_prop h' (VRef 3) "currentStateIndex" = VNum (Qc_of_Z (Z.of_nat 2)) ∧
  get_prop h' (VRef 3) "currentState" = VStr "blue".
Proof.
  apply (superposition_then_change (H := integer_runtime) quantum_store 3 4
           [VStr "red"; VStr "green"; VStr "blue"] (Some (Qc_of_Z 5)) 2 (VStr "blue")).
  - vm_compute. reflexivity.
  - cbn. lia.
  - reflexivity.
Defined.

Lemma run_slot_calls_in_bounds_witness :
  state_slot_in_bounds
    (foldl (run_slot_call (H := integer_runtime) 3) quantum_store
       [SetStates (VRef 4) (Some 1); SetCurrentIndex 2; SetCurrentIndex (Qc_of_Z 99);
        SetStates (VRef 4) None])
    3 = true.
Proof.
  apply (run_slot_calls_in_bounds (H := integer_runtime)).
  - vm_compute. reflexivity.
  - repeat apply Forall_cons_2; try apply Forall_nil_2; try exact I;
      intros a es [= <-]; vm_compute; intros [= <-]; vm_compute; split; congruence.
Defined.

(** ** Tunneling *)

(** The message of a successful attempt converts both ids before the result
    is returned: with an id that does not convert the call throws, whatever
    the sample below the probability. *)
Example applyTunneling_unconvertible_id :
  applyTunneling unconvertible_store (Q2Qc (1 # 2)) 1 2 1 = None ∧
  applyTunneling unconvertible_store (Q2Qc (1 # 2)) 1 2 0
  = Some {| success := false; description := "Tunneling attempt failed" |}.
Proof. by_computation. Qed.


